(** * cvxpy/constraints/exponential.py: exponential and relative-entropy cones

    A shallow embedding of the two constraint classes [ExpCone] and
    [RelEntrQuad] together with the parts of their collaborators (numpy
    reshaping, the expression graph, the analysis scope) that their
    methods touch, followed by the properties of the bookkeeping, the
    shape validation, the dual-value recovery, the residual query and the
    quadrature conversion. *)

From Stdlib Require Import ZArith Ascii String Lia.
From stdpp Require Import base tactics option list strings pretty.

Local Open Scope string_scope.
Local Open Scope Z_scope.
Local Open Scope nat_scope.
Local Open Scope list_scope.

(** ** Python results and exceptions *)

(** The exceptions that can leave the methods of this module.
    [ValueError] is the one raised by the constructors themselves;
    [ReshapeError] stands for the [ValueError] numpy raises when an array of
    [size] elements cannot be given the shape [newshape]; [IndexError] is
    Python's out-of-range subscript; [OtherError] is an exception of a
    class of a collaborator's own (a solver error, say). *)
Inductive Exn : Type :=
| ValueError (msg : string)
| ReshapeError (size : nat) (newshape : list Z)
| IndexError
| OtherError (cls msg : string).

Inductive result (A : Type) : Type :=
| Ok (a : A)
| Raise (e : Exn).
Arguments Ok {A} a.
Arguments Raise {A} e.

#[global] Instance result_ret : MRet result := λ A a, Ok a.
#[global] Instance result_bind : MBind result := λ A B f r,
  match r with Ok a => f a | Raise e => Raise e end.

Definition raises {A} (r : result A) : Prop :=
  match r with Ok _ => False | Raise _ => True end.

(** ** Fixed-width integers

    [x.size] is a numpy [int64]: arithmetic on it is carried out on 64
    bits, two's complement, and wraps around. *)
Definition int64_wrap (v : Z) : Z := ((v + 2 ^ 63) `mod` 2 ^ 64 - 2 ^ 63)%Z.

(** ** Python's rendering of tuples of integers *)

Module py.

(** [repr] of a tuple whose elements are already rendered: the elements
    separated by a comma and a space between parentheses, with the
    trailing comma of a one-element tuple. *)
Fixpoint tuple_tail (elems : list string) : string :=
  match elems with
  | [] => ")"
  | e :: es => ", " +:+ e +:+ tuple_tail es
  end.

Definition repr_tuple (elems : list string) : string :=
  match elems with
  | [] => "()"
  | [e] => "(" +:+ e +:+ ",)"
  | e :: es => "(" +:+ e +:+ tuple_tail es
  end.

(** Decimal digits, of which the rendering of an integer consists. *)
Definition is_digit (c : ascii) : bool :=
  bool_decide (c ∈ ["0"; "1"; "2"; "3"; "4"; "5"; "6"; "7"; "8"; "9"]%char).

Fixpoint all_digits (s : string) : bool :=
  match s with
  | EmptyString => true
  | String c s => is_digit c && all_digits s
  end.

(** [str(s)] for a shape tuple [s]. *)
Definition str_shape (s : list nat) : string := repr_tuple (pretty <$> s).

(** [str((xs, ys, zs))]. *)
Definition str_shapes (xs ys zs : list nat) : string :=
  repr_tuple [str_shape xs; str_shape ys; str_shape zs].

End py.

(** ** numpy arrays, [np.reshape] and column slicing *)

Module np.
Section ndarray.
Context {A : Type}.

(** An array is its shape and its elements in row-major (C) order. *)
Record ndarray : Type := NDArray { shape : list nat; data : list A }.

(** [np.prod] of a shape: the number of elements it holds. *)
Definition prod (s : list nat) : nat := foldr Nat.mul 1 s.

Definition size (a : ndarray) : nat := length (data a).

(** A one-dimensional array. *)
Definition vector (l : list A) : ndarray := NDArray [length l] l.

(** The shape an array of [total] elements takes for the request
    [newshape]: at most one entry may be [-1], and it is inferred from
    the remaining ones; every other entry must be non-negative and the
    element count must be preserved. *)
Definition is_unknown (d : Z) : bool := bool_decide (d = (-1)%Z).

Definition known_prod (newshape : list Z) : Z :=
  foldr Z.mul 1%Z (filter (λ d, d ≠ (-1)%Z) newshape).

Definition fix_unknown_dimension (total : nat) (newshape : list Z)
  : option (list nat) :=
  if bool_decide (Exists (λ d, (d < -1)%Z) newshape) then None
  else
    let known := known_prod newshape in
    match length (filter (λ d, d = (-1)%Z) newshape) with
    | 0 =>
        if bool_decide (known = Z.of_nat total)
        then Some (Z.to_nat <$> newshape) else None
    | 1 =>
        if bool_decide (known = 0%Z) then None
        else if bool_decide ((Z.of_nat total mod known)%Z = 0%Z)
        then Some ((λ d, if is_unknown d
                         then Z.to_nat (Z.of_nat total / known)
                         else Z.to_nat d) <$> newshape)
        else None
    | _ => None
    end.

Definition reshape (a : ndarray) (newshape : list Z) : result ndarray :=
  match fix_unknown_dimension (size a) newshape with
  | Some s => Ok (NDArray s (data a))
  | None => Raise (ReshapeError (size a) newshape)
  end.

(** [a[:, j]] for a two-dimensional array: element [(i, j)] of a
    row-major array with [c] columns lives at flat offset [i * c + j]. *)
Definition column (a : ndarray) (j : nat) : result ndarray :=
  match shape a with
  | [r; c] =>
      if bool_decide (j < c) then
        match mapM (λ i, data a !! (i * c + j)) (seq 0 r) with
        | Some col => Ok (NDArray [r] col)
        | None => Raise IndexError
        end
      else Raise IndexError
  | _ => Raise IndexError
  end.

(** Three per-cone sequences laid out cone by cone, as a solver returns
    them, and the way back: every third element from offset [j]. *)
Fixpoint interleave3 (a b c : list A) : list A :=
  match a, b, c with
  | u :: a, v :: b, w :: c => u :: v :: w :: interleave3 a b c
  | _, _, _ => []
  end.

Fixpoint every_third (j : nat) (l : list A) : list A :=
  match l with
  | u :: v :: w :: l =>
      match j with
      | 0 => u :: every_third j l
      | 1 => v :: every_third j l
      | _ => w :: every_third j l
      end
  | _ => []
  end.

End ndarray.
Arguments ndarray : clear implicits.
End np.

(** ** Methods that mutate their receiver

    A method that writes attributes of [self] and may raise is a function
    from the receiver's state to an outcome and the state it leaves behind. *)

Definition Method (S A : Type) : Type := S → result A * S.

#[global] Instance method_ret {S} : MRet (Method S) := λ A a s, (Ok a, s).
#[global] Instance method_bind {S} : MBind (Method S) := λ A B f m s,
  match m s with
  | (Ok a, s') => f a s'
  | (Raise e, s') => (Raise e, s')
  end.

(** A computation that does not touch the receiver. *)
Definition lift {S A} (r : result A) : Method S A := λ s, (r, s).

(** ** The expression graph

    The expression classes live outside this module. The constructors and
    methods below use them only through this interface: casting of raw
    arguments, shapes, numeric values, the affinity predicate (which reads
    the ambient analysis scope) and negation. *)

Module expr.

Class ExpressionGraph : Type := {
  Scalar : Type;
  (** whatever a caller may pass as an operand *)
  Raw : Type;
  Expression : Type;
  (** [Expression.cast_to_const] *)
  cast_to_const : Raw → result Expression;
  (** an expression passed where an operand is expected *)
  as_raw : Expression → Raw;
  (** [e.shape] *)
  shape : Expression → list nat;
  (** [e.value], [None] while no numeric value is assigned *)
  value : Expression → option (np.ndarray Scalar);
  (** [e.is_affine()], given whether the parametrized scope is active *)
  is_affine : bool → Expression → bool;
  (** [-e] *)
  neg : Expression → Expression;
  cast_to_const_expression e : cast_to_const (as_raw e) = Ok e;
  shape_neg e : shape (neg e) = shape e;
}.

(** Modelled from the spec: the element count of an expression, which the
    expression class computes from its shape ("total scalar element count
    of operand x"). *)
Definition size `{ExpressionGraph} (e : Expression) : nat := np.prod (shape e).

End expr.
Export expr.

(** ** The analysis scope

    Modelled from the spec: [scopes.dpp_scope] is the context manager of the
    "parametrized-discipline" mode. The mode is an ambient flag; the scope
    switches it on for its body and puts the previous value back. *)

Module scopes.

Definition Scoped (A : Type) : Type := bool → A * bool.

Definition dpp_scope {A} (body : Scoped A) : Scoped A :=
  λ prev_state, let '(r, _) := body true in (r, prev_state).

End scopes.

(** ** The constraint base class

    Modelled from the spec: the base initialiser of [Constraint], which
    keeps the operand list and the identifier it is given and owns one
    dual-value slot per operand, empty until a solve fills it. *)

Section Constraint.
Context `{EG : ExpressionGraph}.

Record Constraint : Type := {
  args : list Expression;
  constr_id : option Z;
  dual_variables : list (option (np.ndarray Scalar));
}.

Definition Constraint_init (args : list Expression) (constr_id : option Z)
  : Constraint :=
  {| args := args; constr_id := constr_id;
     dual_variables := (λ _, None) <$> args |}.

(** [self.dual_variables[i].save_value(dv)] *)
Definition save_value (i : nat) (dv : np.ndarray Scalar)
  : Method Constraint () := λ c,
  if bool_decide (i < length (dual_variables c)) then
    (Ok (), {| args := args c; constr_id := constr_id c;
               dual_variables := <[i := Some dv]> (dual_variables c) |})
  else (Raise IndexError, c).

(** At least one of three operands has no numeric value. *)
Definition unassigned (ex ey ez : Expression) : Prop :=
  expr.value ex = None ∨ expr.value ey = None ∨ expr.value ez = None.

(** [all(arg.is_affine() for arg in args)] *)
Definition all_affine (args : list Expression) : scopes.Scoped bool :=
  λ active, (forallb (is_affine active) args, active).

(** The message of the shape check shared by both constructors. The two
    adjacent literals of the source are joined without a space. *)
Definition shape_msg (xs ys zs : list nat) : string :=
  ("All arguments must have the same shapes. Provided arguments have"
     +:+ "shapes ") +:+ py.str_shapes xs ys zs.

End Constraint.

(** ** The modelling layer behind the residual

    The [residual] property builds and solves an auxiliary problem with
    functions of the surrounding library: [Variable], [hstack], the
    subtraction of expressions, [norm2], [Minimize], [Problem] and
    [Problem.solve]. None of them is part of this module, and any of them
    may raise. A method that calls them is therefore a program over these
    calls: it returns, raises an exception of its own, or makes a call
    and goes on with the answer. What a call answers, and whether it
    raises, is for a handler to say. *)

(** The kinds of object that only the modelling layer knows: objectives,
    problems and what [solve] returns. *)
Class Modelling : Type := {
  Objective : Type;
  Problem : Type;
  SolveValue : Type;
}.

Section Prog.
Context `{EG : ExpressionGraph} `{ML : Modelling}.

(** The calls, each with the type of its answer. [C] is the class of
    the constraints handed to [Problem]. *)
Inductive Call (C : Type) : Type → Type :=
| CallVariable (shape : list nat) : Call C Expression
| CallHstack (args : list Expression) : Call C Expression
| CallHstackValues (args : list (np.ndarray Scalar)) : Call C Expression
| CallSub (a b : Expression) : Call C Expression
| CallNorm2 (e : Expression) : Call C Expression
| CallMinimize (e : Expression) : Call C Objective
| CallProblem (objective : Objective) (constraints : list C) : Call C Problem
| CallSolve (problem : Problem) : Call C (option SolveValue).

Inductive Prog (C A : Type) : Type :=
| Ret (a : A)
| Throw (e : Exn)
| Do (X : Type) (op : Call C X) (k : X → Prog C A).

End Prog.
Arguments CallVariable {EG ML C}.
Arguments CallHstack {EG ML C}.
Arguments CallHstackValues {EG ML C}.
Arguments CallSub {EG ML C}.
Arguments CallNorm2 {EG ML C}.
Arguments CallMinimize {EG ML C}.
Arguments CallProblem {EG ML C}.
Arguments CallSolve {EG ML C}.
Arguments Ret {EG ML C A}.
Arguments Throw {EG ML C A}.
Arguments Do {EG ML C A X}.

Section Prog_ops.
Context `{EG : ExpressionGraph} `{ML : Modelling} {C : Type}.

Fixpoint prog_bind {A B} (f : A → Prog C B) (p : Prog C A) : Prog C B :=
  match p with
  | Ret a => f a
  | Throw e => Throw e
  | Do op k => Do op (λ x, prog_bind f (k x))
  end.

#[global] Instance prog_ret : MRet (Prog C) := λ A a, Ret a.
#[global] Instance prog_mbind : MBind (Prog C) := λ A B f p, prog_bind f p.

(** One call, returning its answer. *)
Definition call {X} (op : Call C X) : Prog C X := Do op Ret.

(** The outcome of code of this module, inside a program. *)
Definition lift_result {A} (r : result A) : Prog C A :=
  match r with
  | Ok a => Ret a
  | Raise e => Throw e
  end.

(** What the modelling layer does for each call, on its own state [W]
    (identifier counters, solver state): an answer or an exception. *)
Definition Handler (W : Type) : Type := ∀ X, Call C X → Method W X.

(** Running a program: an exception of a call ends it, like one of its
    own. *)
Fixpoint run {W A} (h : Handler W) (p : Prog C A) : Method W A :=
  match p with
  | Ret a => λ w, (Ok a, w)
  | Throw e => λ w, (Raise e, w)
  | Do op k => λ w,
      match h _ op w with
      | (Ok x, w') => run h (k x) w'
      | (Raise e, w') => (Raise e, w')
      end
  end.

(** What is known of an answer: the variable that [Variable(shape)]
    returns has that shape. *)
Definition answers {X} (op : Call C X) : X → Prop :=
  match op in Call _ X return X → Prop with
  | CallVariable shape => λ v, expr.shape v = shape
  | _ => λ _, True
  end.

Definition honest {W} (h : Handler W) : Prop :=
  ∀ X (op : Call C X) w x w', h X op w = (Ok x, w') → answers op x.

(** A program that raises nothing of its own, whatever the calls answer
    within what is known of them. *)
Inductive raises_nothing {A} : Prog C A → Prop :=
| raises_nothing_ret a : raises_nothing (Ret a)
| raises_nothing_do X (op : Call C X) k :
    (∀ x, answers op x → raises_nothing (k x)) → raises_nothing (Do op k).

(** [e] is raised by some call of the handler. *)
Definition raised_by_call {W} (h : Handler W) (e : Exn) : Prop :=
  ∃ X (op : Call C X) w w', h X op w = (Raise e, w').

(** The lists of values a program stacks, one after the other, when
    every call for an expression is answered with [d]; the walk ends at
    the first call for something else. *)
Fixpoint stacked_values {A} (d : Expression) (p : Prog C A)
  : list (list (np.ndarray Scalar)) :=
  match p with
  | Ret _ | Throw _ => []
  | Do op k =>
      match op in Call _ X return (X → Prog C A) → _ with
      | CallVariable _ | CallHstack _ | CallSub _ _ | CallNorm2 _ =>
          λ k, stacked_values d (k d)
      | CallHstackValues args => λ k, args :: stacked_values d (k d)
      | _ => λ _, []
      end k
  end.

(** The projection both residuals end in: minimise
    [norm2(hstack(variables) - hstack(values))] subject to [constr], and
    return what [solve] returns. *)
Definition solve_projection (variables : list Expression)
    (values : list (np.ndarray Scalar)) (constr : list C)
  : Prog C (option SolveValue) :=
  hv ← call (CallHstack variables);
  ht ← call (CallHstackValues values);
  d ← call (CallSub hv ht);
  n ← call (CallNorm2 d);
  obj ← call (CallMinimize n);
  problem ← call (CallProblem obj constr);
  call (CallSolve problem).

(** Three variables of the given shapes, the cone that [cone] makes of
    them, and the projection onto it. *)
Definition projection (xs ys zs : list nat)
    (values : list (np.ndarray Scalar))
    (cone : Expression → Expression → Expression → result C)
  : Prog C (option SolveValue) :=
  x ← call (CallVariable xs);
  y ← call (CallVariable ys);
  z ← call (CallVariable zs);
  c ← lift_result (cone x y z);
  solve_projection [x; y; z] values [c].

End Prog_ops.

(** ** class RelEntrQuad *)

Module RelEntrQuad.
Section RelEntrQuad.
Context `{EG : ExpressionGraph} `{ML : Modelling}.

(** The attributes of an instance: the three operands, the two control
    parameters and what the base class keeps. *)
Record t : Type := {
  x : Expression;
  y : Expression;
  z : Expression;
  m : Z;
  k : Z;
  base : Constraint;
}.

(** [RelEntrQuad.__init__(self, x, y, z, m, k, constr_id)] *)
Definition init (x y z : Raw) (m k : Z) (constr_id : option Z) : result t :=
  x ← cast_to_const x;
  y ← cast_to_const y;
  z ← cast_to_const z;
  let '(xs, ys, zs) := (expr.shape x, expr.shape y, expr.shape z) in
  if bool_decide (xs ≠ ys) || bool_decide (xs ≠ zs) then
    let msg := shape_msg xs ys zs in
    Raise (ValueError msg)
  else
    Ok {| x := x; y := y; z := z; m := m; k := k;
          base := Constraint_init [x; y; z] constr_id |}.

Definition get_data (self : t) : list Z := [m self; k self].

(** The [residual] property. The bare call [cvxtypes.expression()] in its
    body returns the expression class and is dropped. *)
Definition residual (self : t) : Prog t (option SolveValue) :=
  match expr.value (x self), expr.value (y self), expr.value (z self) with
  | Some xv, Some yv, Some zv =>
      x' ← call (CallVariable (expr.shape (x self)));
      y' ← call (CallVariable (expr.shape (y self)));
      z' ← call (CallVariable (expr.shape (z self)));
      c ← lift_result (init (as_raw x') (as_raw y') (as_raw z')
                            (m self) (k self) None);
      let constr := [c] in
      hv ← call (CallHstack [x'; y'; z']);
      ht ← call (CallHstackValues [xv; yv; zv]);
      d ← call (CallSub hv ht);
      n ← call (CallNorm2 d);
      obj ← call (CallMinimize n);
      problem ← call (CallProblem obj constr);
      call (CallSolve problem)
  | _, _, _ => Ret None
  end.

Definition num_cones (self : t) : nat := expr.size (x self).

(** The [size] property. [num_cones()] is the [int64] [x.size], and so
    is its product with 3. *)
Definition size (self : t) : Z := int64_wrap (3 * Z.of_nat (num_cones self)).

Definition cone_sizes (self : t) : list nat := replicate (num_cones self) 3.

Definition is_dcp (dpp : bool) (self : t) : scopes.Scoped bool :=
  if dpp then scopes.dpp_scope (all_affine (args (base self)))
  else all_affine (args (base self)).

Definition is_dgp (dpp : bool) (self : t) : bool := false.

Definition is_dqcp (self : t) : scopes.Scoped bool := is_dcp false self.

(** The [shape] property. *)
Definition shape (self : t) : list nat :=
  let s := [3] ++ expr.shape (x self) in
  s.

Definition save_dual_value (value : np.ndarray Scalar) : Method t () :=
  mret ().

(** The instances a program can hold: those a constructor call returned,
    and what [save_dual_value] leaves of them. *)
Inductive reachable : t → Prop :=
| reachable_init rx ry rz m k constr_id self :
    init rx ry rz m k constr_id = Ok self → reachable self
| reachable_save self value r self' :
    reachable self → save_dual_value value self = (r, self') →
    reachable self'.

(** What every instance satisfies (see [reachable_invariant]). *)
Definition invariant (self : t) : Prop :=
  expr.shape (x self) = expr.shape (y self) ∧
  expr.shape (x self) = expr.shape (z self) ∧
  args (base self) = [x self; y self; z self] ∧
  length (dual_variables (base self)) = 3.

End RelEntrQuad.
End RelEntrQuad.

(** ** class ExpCone *)

Module ExpCone.
Section ExpCone.
Context `{EG : ExpressionGraph} `{ML : Modelling}.

Record t : Type := {
  x : Expression;
  y : Expression;
  z : Expression;
  base : Constraint;
}.

(** [ExpCone.__init__(self, x, y, z, constr_id)] *)
Definition init (x y z : Raw) (constr_id : option Z) : result t :=
  x ← cast_to_const x;
  y ← cast_to_const y;
  z ← cast_to_const z;
  let '(xs, ys, zs) := (expr.shape x, expr.shape y, expr.shape z) in
  if bool_decide (xs ≠ ys) || bool_decide (xs ≠ zs) then
    let msg := shape_msg xs ys zs in
    Raise (ValueError msg)
  else
    Ok {| x := x; y := y; z := z;
          base := Constraint_init [x; y; z] constr_id |}.

(** The [residual] property. *)
Definition residual (self : t) : Prog t (option SolveValue) :=
  match expr.value (x self), expr.value (y self), expr.value (z self) with
  | Some xv, Some yv, Some zv =>
      x' ← call (CallVariable (expr.shape (x self)));
      y' ← call (CallVariable (expr.shape (y self)));
      z' ← call (CallVariable (expr.shape (z self)));
      c ← lift_result (init (as_raw x') (as_raw y') (as_raw z') None);
      let constr := [c] in
      hv ← call (CallHstack [x'; y'; z']);
      ht ← call (CallHstackValues [xv; yv; zv]);
      d ← call (CallSub hv ht);
      n ← call (CallNorm2 d);
      obj ← call (CallMinimize n);
      problem ← call (CallProblem obj constr);
      call (CallSolve problem)
  | _, _, _ => Ret None
  end.

Definition num_cones (self : t) : nat := expr.size (x self).

(** The [size] property. [num_cones()] is the [int64] [x.size], and so
    is its product with 3. *)
Definition size (self : t) : Z := int64_wrap (3 * Z.of_nat (num_cones self)).

Definition as_quad_approx (self : t) (m k : Z) : result RelEntrQuad.t :=
  RelEntrQuad.init (as_raw (y self)) (as_raw (z self))
                   (as_raw (neg (x self))) m k None.

Definition cone_sizes (self : t) : list nat := replicate (num_cones self) 3.

Definition is_dcp (dpp : bool) (self : t) : scopes.Scoped bool :=
  if dpp then scopes.dpp_scope (all_affine (args (base self)))
  else all_affine (args (base self)).

Definition is_dgp (dpp : bool) (self : t) : bool := false.

Definition is_dqcp (self : t) : scopes.Scoped bool := is_dcp false self.

(** The [shape] property. *)
Definition shape (self : t) : list nat :=
  let s := [3] ++ expr.shape (x self) in
  s.

(** The receiver itself, and a write to one of its dual-value slots. *)
Definition self_ : Method t t := λ self, (Ok self, self).

Definition dual_save_value (i : nat) (dv : np.ndarray Scalar)
  : Method t () := λ self,
  let '(r, b) := save_value i dv (base self) in
  (r, {| x := x self; y := y self; z := z self; base := b |}).

Definition save_dual_value (value : np.ndarray Scalar) : Method t () :=
  self ← self_;
  value ← lift (np.reshape value [-1; 3]%Z);
  dv0 ← lift (col ← np.column value 0;
              np.reshape col (Z.of_nat <$> expr.shape (x self)));
  dv1 ← lift (col ← np.column value 1;
              np.reshape col (Z.of_nat <$> expr.shape (y self)));
  dv2 ← lift (col ← np.column value 2;
              np.reshape col (Z.of_nat <$> expr.shape (z self)));
  dual_save_value 0 dv0;;
  dual_save_value 1 dv1;;
  dual_save_value 2 dv2.

(** The instances a program can hold: those a constructor call returned,
    and what [save_dual_value] leaves of them, whether it raised or not. *)
Inductive reachable : t → Prop :=
| reachable_init rx ry rz constr_id self :
    init rx ry rz constr_id = Ok self → reachable self
| reachable_save self value r self' :
    reachable self → save_dual_value value self = (r, self') →
    reachable self'.

(** What every instance satisfies (see [reachable_invariant]). *)
Definition invariant (self : t) : Prop :=
  expr.shape (x self) = expr.shape (y self) ∧
  expr.shape (x self) = expr.shape (z self) ∧
  args (base self) = [x self; y self; z self] ∧
  length (dual_variables (base self)) = 3.

(** The instance whose three dual-value slots hold [d0], [d1], [d2] and
    whose other attributes are those of [self]. *)
Definition with_duals (self : t) (d0 d1 d2 : np.ndarray Scalar) : t :=
  {| x := x self; y := y self; z := z self;
     base := {| args := args (base self);
                constr_id := constr_id (base self);
                dual_variables := [Some d0; Some d1; Some d2] |} |}.

(** What the specification words ask of the recovery: reshape to
    [(num_cones(), 3)], split column-wise, reshape each column to the
    operand shape, store in the order x, y, z. *)
Definition recover_spec (self : t) (value : np.ndarray Scalar)
  : result (list (np.ndarray Scalar)) :=
  let S := Z.of_nat <$> expr.shape (x self) in
  value ← np.reshape value [Z.of_nat (num_cones self); 3%Z];
  mapM (λ j, col ← np.column value j; np.reshape col S) [0; 1; 2].

(** Two states of an instance that differ at most in what the dual-value
    slots hold. *)
Definition same_but_duals (self self' : t) : Prop :=
  x self' = x self ∧ y self' = y self ∧ z self' = z self ∧
  args (base self') = args (base self) ∧
  constr_id (base self') = constr_id (base self) ∧
  length (dual_variables (base self'))
    = length (dual_variables (base self)).

(** A method that writes nothing but dual-value slots. *)
Definition preserves {A} (m : Method t A) : Prop :=
  ∀ self, same_but_duals self (m self).2.

(** What a dual-value slot may hold: nothing, or an array of the shape of
    its operand with one entry per cone. *)
Definition slot_holds (self : t) (operand : Expression)
    (slot : option (np.ndarray Scalar)) : Prop :=
  match slot with
  | None => True
  | Some d => np.shape d = expr.shape operand ∧
              length (np.data d) = num_cones self
  end.

End ExpCone.
End ExpCone.

(** ** Failure of a construction *)

Section failures.
Context `{EG : ExpressionGraph}.

(** The ways a construction over [rx], [ry], [rz] can raise [e]: the
    first cast that fails, in the order x, y, z, or else the shape check. *)
Definition init_failure (rx ry rz : Raw) (e : Exn) : Prop :=
  cast_to_const rx = Raise e ∨
  (∃ ex, cast_to_const rx = Ok ex ∧ cast_to_const ry = Raise e) ∨
  (∃ ex ey, cast_to_const rx = Ok ex ∧ cast_to_const ry = Ok ey ∧
            cast_to_const rz = Raise e) ∨
  (∃ ex ey ez, cast_to_const rx = Ok ex ∧ cast_to_const ry = Ok ey ∧
               cast_to_const rz = Ok ez ∧
               (expr.shape ex ≠ expr.shape ey ∨
                expr.shape ex ≠ expr.shape ez) ∧
               e = ValueError (shape_msg (expr.shape ex) (expr.shape ey)
                                         (expr.shape ez))).

End failures.

(** ** Rendering of the instances *)

Section str.
Context `{EG : ExpressionGraph}.
(** [str(e)] of an expression, which the expression classes define. *)
Variable str_expr : Expression → string.

(** [ExpCone.__str__]: ["ExpCone(%s, %s, %s)" % (self.x, self.y, self.z)] *)
Definition ExpCone_str (self : ExpCone.t) : string :=
  "ExpCone(" +:+ str_expr (ExpCone.x self) +:+ ", "
    +:+ str_expr (ExpCone.y self) +:+ ", "
    +:+ str_expr (ExpCone.z self) +:+ ")".

(** [ExpCone.__repr__], which repeats the format. *)
Definition ExpCone_repr (self : ExpCone.t) : string :=
  "ExpCone(" +:+ str_expr (ExpCone.x self) +:+ ", "
    +:+ str_expr (ExpCone.y self) +:+ ", "
    +:+ str_expr (ExpCone.z self) +:+ ")".

(** [RelEntrQuad.__str__] *)
Definition RelEntrQuad_str (self : RelEntrQuad.t) : string :=
  let tup := (RelEntrQuad.x self, RelEntrQuad.y self, RelEntrQuad.z self,
              RelEntrQuad.m self, RelEntrQuad.k self) in
  let '(x, y, z, m, k) := tup in
  "RelEntrQuad(" +:+ str_expr x +:+ ", " +:+ str_expr y +:+ ", "
    +:+ str_expr z +:+ ", " +:+ pretty m +:+ ", " +:+ pretty k +:+ ")".

(** [RelEntrQuad.__repr__] *)
Definition RelEntrQuad_repr (self : RelEntrQuad.t) : string :=
  RelEntrQuad_str self.

End str.

(** ** A small expression graph

    Integer-valued terms: variables (with the value a solve may have left),
    constants, negation, a parameter multiple, a transcendental atom, and
    what the sample modelling layer builds: numbered variables, stacks of
    three blocks, differences and norms.
    The instance below makes the interface concrete so that the definitions
    above can be run. *)

Module sample.

Inductive term : Type :=
| Var (shape : list nat) (value : option (np.ndarray Z))
| Const (a : np.ndarray Z)
| Neg (t : term)
| ParamMul (t : term)
| Exp (t : term)
| Fresh (id : nat) (shape : list nat)
| Hstack (a b c : term)
| Sub (a b : term)
| Norm2 (t : term).

(** Stacking side by side adds up the last dimension. *)
Definition hstack_shape (sa sb sc : list nat) : list nat :=
  match sa, sb, sc with
  | [a], [b], [c] => [a + b + c]
  | [r; a], [_; b], [_; c] => [r; a + b + c]
  | _, _, _ => sa
  end.

Fixpoint term_shape (t : term) : list nat :=
  match t with
  | Var s _ | Fresh _ s => s
  | Const a => np.shape a
  | Neg t | ParamMul t | Exp t => term_shape t
  | Hstack a b c => hstack_shape (term_shape a) (term_shape b) (term_shape c)
  | Sub a _ => term_shape a
  | Norm2 _ => []
  end.

Fixpoint term_value (t : term) : option (np.ndarray Z) :=
  match t with
  | Var _ v => v
  | Const a => Some a
  | Neg t =>
      a ← term_value t;
      Some (np.NDArray (np.shape a) (Z.opp <$> np.data a))
  | ParamMul _ | Exp _ | Fresh _ _ | Hstack _ _ _ | Sub _ _ | Norm2 _ => None
  end.

Fixpoint term_constant (t : term) : bool :=
  match t with
  | Var _ _ | Fresh _ _ => false
  | Const _ => true
  | Neg t | ParamMul t | Exp t | Norm2 t => term_constant t
  | Hstack a b c => term_constant a && term_constant b && term_constant c
  | Sub a b => term_constant a && term_constant b
  end.

(** A parameter multiple is affine as long as parameters count as
    constants; inside the parametrized scope it is affine only when the
    other factor is constant. *)
Fixpoint term_affine (dpp_active : bool) (t : term) : bool :=
  match t with
  | Var _ _ | Const _ | Fresh _ _ => true
  | Neg t => term_affine dpp_active t
  | ParamMul t => if dpp_active then term_constant t else term_affine false t
  | Exp t | Norm2 t => term_constant t
  | Hstack a b c =>
      term_affine dpp_active a && term_affine dpp_active b
        && term_affine dpp_active c
  | Sub a b => term_affine dpp_active a && term_affine dpp_active b
  end.

Definition cast (r : term + np.ndarray Z) : result term :=
  match r with
  | inl t => Ok t
  | inr a => Ok (Const a)
  end.

Definition graph : ExpressionGraph := {|
  Scalar := Z;
  Raw := term + np.ndarray Z;
  Expression := term;
  cast_to_const := cast;
  as_raw := inl;
  expr.shape := term_shape;
  expr.value := term_value;
  is_affine := term_affine;
  neg := Neg;
  cast_to_const_expression := λ _, eq_refl;
  shape_neg := λ _, eq_refl;
|}.

(** Some operands and instances to run the definitions on. *)
Definition u : term := Var [2; 2] None.
Definition w : term := Var [2; 2] (Some (np.NDArray [2; 2] [5; 6; 7; 8]%Z)).
Definition c4 : np.ndarray Z := np.NDArray [2; 2] [1; 2; 3; 4]%Z.
Definition c3 : np.ndarray Z := np.NDArray [3] [1; 2; 3]%Z.

Definition cone : ExpCone.t (EG := graph) :=
  @ExpCone.Build_t graph u (Const c4) w
    (Constraint_init (EG := graph) [u; Const c4; w] None).

Definition solved_cone : ExpCone.t (EG := graph) :=
  @ExpCone.Build_t graph w (Const c4) w
    (Constraint_init (EG := graph) [w; Const c4; w] None).

Definition quad : RelEntrQuad.t (EG := graph) :=
  @RelEntrQuad.Build_t graph (Const c4) w (Neg u) 3 2
    (Constraint_init (EG := graph) [Const c4; w; Neg u] None).

Definition solved_quad : RelEntrQuad.t (EG := graph) :=
  @RelEntrQuad.Build_t graph (Const c4) w (Neg w) 3 2
    (Constraint_init (EG := graph) [Const c4; w; Neg w] None).

(** The same terms behind a cast that refuses some arguments: [None]
    stands for an object that cannot be made a constant. *)
Definition strict_cast (r : term + option (np.ndarray Z)) : result term :=
  match r with
  | inl t => Ok t
  | inr (Some a) => Ok (Const a)
  | inr None => Raise (ValueError "not a constant")
  end.

Definition strict_graph : ExpressionGraph := {|
  Scalar := Z;
  Raw := term + option (np.ndarray Z);
  Expression := term;
  cast_to_const := strict_cast;
  as_raw := inl;
  expr.shape := term_shape;
  expr.value := term_value;
  is_affine := term_affine;
  neg := Neg;
  cast_to_const_expression := λ _, eq_refl;
  shape_neg := λ _, eq_refl;
|}.

(** A modelling layer over these terms. Its state is the next free
    identifier; a variable takes one. The solver gives up on every
    problem. *)
Definition layer : Modelling := {|
  Objective := term;
  Problem := term * nat;
  SolveValue := Z;
|}.

Definition handler {C : Type}
  : Handler (EG := graph) (ML := layer) (C := C) nat :=
  λ X op,
    match op in Call _ X return Method nat X with
    | CallVariable s => λ next, (Ok (Fresh next s), S next)
    | CallHstack args => λ next,
        match args with
        | [a; b; c] => (Ok (Hstack a b c), next)
        | _ => (Raise (ValueError "three blocks expected"), next)
        end
    | CallHstackValues args => λ next,
        match args with
        | [a; b; c] => (Ok (Hstack (Const a) (Const b) (Const c)), next)
        | _ => (Raise (ValueError "three blocks expected"), next)
        end
    | CallSub a b => λ next, (Ok (Sub a b), next)
    | CallNorm2 e => λ next, (Ok (Norm2 e), next)
    | CallMinimize e => λ next, (Ok e, next)
    | CallProblem obj constr => λ next, (Ok (obj, length constr), next)
    | CallSolve _ => λ next,
        (Raise (OtherError "SolverError" "no solver"), next)
    end.

(** Operands too large for [3 * x.size] to fit 64 bits. *)
Definition big_dim : nat := Z.to_nat 2147483647.
Definition big : term := Var [big_dim; big_dim] None.

Definition big_cone : ExpCone.t (EG := graph) :=
  @ExpCone.Build_t graph big big big
    (Constraint_init (EG := graph) [big; big; big] None).

End sample.

Example str_shapes_ex : py.str_shapes [2] [3] [2; 4] = "((2,), (3,), (2, 4))".
Proof. vm_compute. reflexivity. Qed.

Example reshape_ex :
  np.reshape (np.vector [1;2;3;4;5;6]) [(-1)%Z; 3%Z] = Ok (np.NDArray [2;3] [1;2;3;4;5;6]).
Proof. vm_compute. reflexivity. Qed.

Example column_ex :
  np.column (np.NDArray [2;3] [1;2;3;4;5;6]) 1 = Ok (np.NDArray [2] [2;5]).
Proof. vm_compute. reflexivity. Qed.

Example init_mismatch_ex :
  ExpCone.init (EG := sample.graph)
    (inl (sample.Var [2] None)) (inr sample.c3) (inl (sample.Var [2] None)) None
  = Raise (ValueError
      "All arguments must have the same shapes. Provided arguments haveshapes ((2,), (3,), (2,))").
Proof. vm_compute. reflexivity. Qed.

Example save_dual_value_ex :
  ExpCone.save_dual_value (EG := sample.graph)
    (np.vector [1; 2; 3; 4; 5; 6; 7; 8; 9; 10; 11; 12]%Z) sample.cone
  = (Ok (), ExpCone.with_duals (EG := sample.graph) sample.cone
              (np.NDArray [2; 2] [1; 4; 7; 10]%Z)
              (np.NDArray [2; 2] [2; 5; 8; 11]%Z)
              (np.NDArray [2; 2] [3; 6; 9; 12]%Z)).
Proof. vm_compute. reflexivity. Qed.


(** * Properties *)

Lemma sample_cone_reachable : ExpCone.reachable sample.cone.
Proof.
  by apply (ExpCone.reachable_init (EG := sample.graph)
              (inl sample.u) (inr sample.c4) (inl sample.w) None).
Qed.

Lemma sample_solved_cone_reachable : ExpCone.reachable sample.solved_cone.
Proof.
  by apply (ExpCone.reachable_init (EG := sample.graph)
              (inl sample.w) (inr sample.c4) (inl sample.w) None).
Qed.

Lemma sample_quad_reachable : RelEntrQuad.reachable sample.quad.
Proof.
  by apply (RelEntrQuad.reachable_init (EG := sample.graph)
              (inr sample.c4) (inl sample.w) (inl (sample.Neg sample.u))
              3%Z 2%Z None).
Qed.

Lemma sample_solved_quad_reachable : RelEntrQuad.reachable sample.solved_quad.
Proof.
  by apply (RelEntrQuad.reachable_init (EG := sample.graph)
              (inr sample.c4) (inl sample.w) (inl (sample.Neg sample.w))
              3%Z 2%Z None).
Qed.

(** ** numpy *)

Section np_facts.
Context {A : Type}.
Implicit Types (a : np.ndarray A) (l : list A) (s : list nat).

Lemma known_prod_of_nat s :
  np.known_prod (Z.of_nat <$> s) = Z.of_nat (np.prod s).
Proof.
  unfold np.known_prod, np.prod. induction s as [|d s IH]; [done|].
  cbn [fmap list_fmap]. rewrite filter_cons_True by lia.
  cbn [foldr]. rewrite IH. lia.
Qed.

Lemma filter_unknown_of_nat s :
  filter (λ d, d = (-1)%Z) (Z.of_nat <$> s) = [].
Proof.
  induction s as [|d s IH]; [done|].
  cbn [fmap list_fmap]. rewrite filter_cons_False by lia. done.
Qed.

Lemma to_nat_of_nat s : Z.to_nat <$> (Z.of_nat <$> s) = s.
Proof.
  rewrite <- list_fmap_compose. rewrite <- (list_fmap_id s) at 2.
  apply list_fmap_ext. intros _ d _. cbn. lia.
Qed.

(** Reshaping to a shape without unknown entries succeeds exactly when
    the element counts agree, and keeps the elements in place. *)
Lemma fix_unknown_dimension_of_nat total s :
  np.fix_unknown_dimension total (Z.of_nat <$> s) =
  if bool_decide (np.prod s = total) then Some s else None.
Proof.
  unfold np.fix_unknown_dimension.
  rewrite bool_decide_eq_false_2.
  2:{ rewrite Exists_fmap, Exists_exists. intros (d & _ & Hd). cbn in Hd. lia. }
  cbn zeta. rewrite filter_unknown_of_nat, known_prod_of_nat, to_nat_of_nat.
  cbn [length]. do 2 case_bool_decide; (done || lia).
Qed.

Lemma reshape_of_nat a s :
  np.reshape a (Z.of_nat <$> s) =
  if bool_decide (np.prod s = np.size a) then Ok (np.NDArray s (np.data a))
  else Raise (ReshapeError (np.size a) (Z.of_nat <$> s)).
Proof.
  unfold np.reshape. rewrite fix_unknown_dimension_of_nat.
  by case_bool_decide.
Qed.

(** Reshaping to [(-1, 3)] succeeds exactly on a multiple of three. *)
Lemma reshape_rows_of_3 a :
  np.reshape a [(-1)%Z; 3%Z] =
  if bool_decide (np.size a `mod` 3 = 0)
  then Ok (np.NDArray [np.size a `div` 3; 3] (np.data a))
  else Raise (ReshapeError (np.size a) [(-1)%Z; 3%Z]).
Proof.
  assert (Hf : filter (λ d, d = (-1)%Z) [(-1)%Z; 3%Z] = [(-1)%Z]).
  { rewrite filter_cons_True by done. by rewrite filter_cons_False by done. }
  assert (Hk : np.known_prod [(-1)%Z; 3%Z] = 3%Z).
  { unfold np.known_prod. rewrite filter_cons_False by lia.
    by rewrite filter_cons_True by lia. }
  unfold np.reshape, np.fix_unknown_dimension.
  rewrite bool_decide_eq_false_2.
  2:{ rewrite !Exists_cons, Exists_nil. lia. }
  cbn zeta. rewrite Hf, Hk. cbn [length fmap list_fmap].
  rewrite (bool_decide_eq_false_2 (3%Z = 0%Z)) by done.
  unfold np.is_unknown.
  rewrite (bool_decide_eq_true_2 ((-1)%Z = (-1)%Z)) by done.
  rewrite (bool_decide_eq_false_2 (3%Z = (-1)%Z)) by done.
  change (Z.to_nat 3) with 3.
  replace (Z.of_nat (np.size a) `mod` 3)%Z with (Z.of_nat (np.size a `mod` 3))
    by (rewrite Nat2Z.inj_mod; done).
  replace (Z.to_nat (Z.of_nat (np.size a) `div` 3)) with (np.size a `div` 3)
    by (rewrite <- (Nat2Z.id (np.size a `div` 3)), Nat2Z.inj_div; done).
  do 2 case_bool_decide; (done || lia).
Qed.

Lemma reshape_explicit_rows a n :
  np.reshape a [Z.of_nat n; 3%Z] =
  if bool_decide (n * 3 = np.size a) then Ok (np.NDArray [n; 3] (np.data a))
  else Raise (ReshapeError (np.size a) [Z.of_nat n; 3%Z]).
Proof.
  change [Z.of_nat n; 3%Z] with (Z.of_nat <$> [n; 3]).
  rewrite reshape_of_nat. cbn [np.prod foldr].
  rewrite Nat.mul_1_r. done.
Qed.

Lemma length_every_third j l r :
  length l = 3 * r → length (np.every_third j l) = r.
Proof.
  revert l. induction r as [|r IH]; intros l Hl.
  - by destruct l.
  - destruct l as [|u [|v [|w l]]]; cbn in Hl; try lia.
    assert (length l = 3 * r) as Hr%IH by lia.
    destruct j as [|[|j]]; cbn; by rewrite Hr.
Qed.

Lemma lookup_every_third_Some j l i e :
  j < 3 → np.every_third j l !! i = Some e → l !! (i * 3 + j) = Some e.
Proof.
  intros Hj. revert l. induction i as [|i IH]; intros l.
  - destruct l as [|u [|v [|w l]]]; try done.
    destruct j as [|[|[|j]]]; cbn; (done || lia).
  - destruct l as [|u [|v [|w l]]]; try done.
    intros Hi. apply (IH l).
    by destruct j as [|[|j]].
Qed.

Lemma lookup_every_third j l r i :
  j < 3 → length l = 3 * r → i < r →
  np.every_third j l !! i = l !! (i * 3 + j).
Proof.
  intros Hj Hl Hi.
  destruct (np.every_third j l !! i) as [e|] eqn:He.
  - symmetry. by apply lookup_every_third_Some.
  - apply lookup_ge_None in He.
    rewrite (length_every_third j l r) in He by done. lia.
Qed.

(** A column of an [r] by 3 array is every third element of its data. *)
Lemma column_rows_of_3 a r j :
  np.shape a = [r; 3] → length (np.data a) = 3 * r → j < 3 →
  np.column a j = Ok (np.NDArray [r] (np.every_third j (np.data a))).
Proof.
  intros Hs Hl Hj. unfold np.column. rewrite Hs.
  rewrite bool_decide_eq_true_2 by done.
  assert (mapM (λ i, np.data a !! (i * 3 + j)) (seq 0 r)
          = Some (np.every_third j (np.data a))) as ->; [|done].
  apply mapM_Some, Forall2_same_length_lookup. split.
  - by rewrite length_seq, (length_every_third j _ r).
  - intros i k e Hk He. apply lookup_seq in Hk as [-> _].
    by apply lookup_every_third_Some.
Qed.

Lemma length_interleave3 l1 l2 l3 :
  length l1 = length l2 → length l1 = length l3 →
  length (np.interleave3 l1 l2 l3) = 3 * length l1.
Proof.
  revert l2 l3. induction l1 as [|u l1 IH]; intros [|v l2] [|w l3]; try done.
  cbn. intros ? ?. rewrite IH by lia. lia.
Qed.

Lemma every_third_interleave3 l1 l2 l3 :
  length l1 = length l2 → length l1 = length l3 →
  np.every_third 0 (np.interleave3 l1 l2 l3) = l1 ∧
  np.every_third 1 (np.interleave3 l1 l2 l3) = l2 ∧
  np.every_third 2 (np.interleave3 l1 l2 l3) = l3.
Proof.
  revert l2 l3. induction l1 as [|u l1 IH]; intros [|v l2] [|w l3]; try done.
  cbn. intros ? ?. destruct (IH l2 l3) as (-> & -> & ->); (done || lia).
Qed.

End np_facts.

(** ** Construction and the class invariant *)

Section constructor_facts.
Context `{EG : ExpressionGraph}.
Implicit Types (rx ry rz : Raw) (ex ey ez : Expression).

Lemma ExpCone_init_cast rx ry rz ex ey ez constr_id :
  cast_to_const rx = Ok ex → cast_to_const ry = Ok ey →
  cast_to_const rz = Ok ez →
  ExpCone.init rx ry rz constr_id =
  if bool_decide (expr.shape ex ≠ expr.shape ey)
     || bool_decide (expr.shape ex ≠ expr.shape ez)
  then Raise (ValueError (shape_msg (expr.shape ex) (expr.shape ey)
                                    (expr.shape ez)))
  else Ok {| ExpCone.x := ex; ExpCone.y := ey; ExpCone.z := ez;
             ExpCone.base := Constraint_init [ex; ey; ez] constr_id |}.
Proof. intros Hx Hy Hz. unfold ExpCone.init. by rewrite Hx, Hy, Hz. Qed.

Lemma RelEntrQuad_init_cast rx ry rz ex ey ez m k constr_id :
  cast_to_const rx = Ok ex → cast_to_const ry = Ok ey →
  cast_to_const rz = Ok ez →
  RelEntrQuad.init rx ry rz m k constr_id =
  if bool_decide (expr.shape ex ≠ expr.shape ey)
     || bool_decide (expr.shape ex ≠ expr.shape ez)
  then Raise (ValueError (shape_msg (expr.shape ex) (expr.shape ey)
                                    (expr.shape ez)))
  else Ok {| RelEntrQuad.x := ex; RelEntrQuad.y := ey; RelEntrQuad.z := ez;
             RelEntrQuad.m := m; RelEntrQuad.k := k;
             RelEntrQuad.base := Constraint_init [ex; ey; ez] constr_id |}.
Proof. intros Hx Hy Hz. unfold RelEntrQuad.init. by rewrite Hx, Hy, Hz. Qed.

Lemma shapes_differ_spec (xs ys zs : list nat) :
  bool_decide (xs ≠ ys) || bool_decide (xs ≠ zs) = false ↔ xs = ys ∧ xs = zs.
Proof.
  rewrite orb_false_iff, !bool_decide_eq_false.
  split; intros [H1 H2]; split;
    first [by apply dec_stable | by intros ?].
Qed.

Lemma ExpCone_init_invariant rx ry rz constr_id self :
  ExpCone.init rx ry rz constr_id = Ok self → ExpCone.invariant self.
Proof.
  unfold ExpCone.init.
  destruct (cast_to_const rx) as [ex|]; [|done].
  destruct (cast_to_const ry) as [ey|]; [|done].
  destruct (cast_to_const rz) as [ez|]; [|done]. cbn.
  destruct (_ || _) eqn:Hs; [done|].
  apply shapes_differ_spec in Hs as [? ?].
  intros [= <-]. by repeat split.
Qed.

Lemma RelEntrQuad_init_invariant rx ry rz m k constr_id self :
  RelEntrQuad.init rx ry rz m k constr_id = Ok self →
  RelEntrQuad.invariant self.
Proof.
  unfold RelEntrQuad.init.
  destruct (cast_to_const rx) as [ex|]; [|done].
  destruct (cast_to_const ry) as [ey|]; [|done].
  destruct (cast_to_const rz) as [ez|]; [|done]. cbn.
  destruct (_ || _) eqn:Hs; [done|].
  apply shapes_differ_spec in Hs as [? ?].
  intros [= <-]. by repeat split.
Qed.

Lemma RelEntrQuad_reachable_invariant self :
  RelEntrQuad.reachable self → RelEntrQuad.invariant self.
Proof.
  induction 1 as [rx ry rz m k constr_id self Hinit|self v r self' _ IH Hsave].
  - by eapply RelEntrQuad_init_invariant.
  - by injection Hsave as _ <-.
Qed.

End constructor_facts.

(** ** Dual-value recovery *)

Section recovery_facts.
Context `{EG : ExpressionGraph}.
Implicit Types (self : ExpCone.t) (v : np.ndarray Scalar).

Lemma recover_column (d : list Scalar) n j s :
  length d = 3 * n → j < 3 →
  (np.column (np.NDArray [n; 3] d) j
     ≫= λ col, np.reshape col (Z.of_nat <$> s)) =
  if bool_decide (np.prod s = n)
  then Ok (np.NDArray s (np.every_third j d))
  else Raise (ReshapeError n (Z.of_nat <$> s)).
Proof.
  intros Hd Hj. rewrite (column_rows_of_3 _ n) by done.
  unfold mbind, result_bind. rewrite reshape_of_nat.
  unfold np.size. cbn [np.data].
  by rewrite (length_every_third j d n) by done.
Qed.

Lemma save_dual_value_Ok self v :
  ExpCone.invariant self → np.size v = 3 * ExpCone.num_cones self →
  ExpCone.save_dual_value v self =
  (Ok (), ExpCone.with_duals self
     (np.NDArray (expr.shape (ExpCone.x self)) (np.every_third 0 (np.data v)))
     (np.NDArray (expr.shape (ExpCone.y self)) (np.every_third 1 (np.data v)))
     (np.NDArray (expr.shape (ExpCone.z self)) (np.every_third 2 (np.data v)))).
Proof.
  intros (Hy & Hz & _ & Hlen) Hsize.
  unfold ExpCone.num_cones, expr.size in Hsize.
  unfold ExpCone.save_dual_value, ExpCone.self_, lift.
  unfold mbind at 1 2, method_bind.
  rewrite reshape_rows_of_3, bool_decide_eq_true_2
    by (rewrite Hsize, Nat.mul_comm; apply Nat.Div0.mod_mul).
  replace (np.size v `div` 3) with (np.prod (expr.shape (ExpCone.x self)))
    by (rewrite Hsize, Nat.mul_comm, Nat.div_mul; done).
  rewrite !recover_column by (done || lia).
  rewrite <- Hy, <- Hz, !bool_decide_eq_true_2 by done.
  unfold mbind, method_bind, ExpCone.dual_save_value, save_value.
  destruct self as [ex ey ez [a i dv]]; cbn in *.
  destruct dv as [|d0 [|d1 [|d2 [|]]]]; done.
Qed.

Lemma save_dual_value_Raise self v :
  ExpCone.invariant self → np.size v ≠ 3 * ExpCone.num_cones self →
  ∃ total newshape,
    ExpCone.save_dual_value v self = (Raise (ReshapeError total newshape), self).
Proof.
  intros (Hy & Hz & _ & Hlen) Hsize.
  unfold ExpCone.num_cones, expr.size in Hsize.
  unfold ExpCone.save_dual_value, ExpCone.self_, lift.
  unfold mbind at 1 2, method_bind.
  rewrite reshape_rows_of_3. case_bool_decide as Hmod; [|by eauto].
  apply Nat.Div0.div_exact in Hmod. unfold np.size in *.
  unfold mbind at 1, method_bind.
  rewrite recover_column by lia.
  rewrite bool_decide_eq_false_2 by lia. by eauto.
Qed.

Lemma ExpCone_reachable_invariant self :
  ExpCone.reachable self → ExpCone.invariant self.
Proof.
  induction 1 as [rx ry rz constr_id self Hinit|self v r self' _ IH Hsave].
  - by eapply ExpCone_init_invariant.
  - destruct (decide (np.size v = 3 * ExpCone.num_cones self)) as [Hv|Hv].
    + rewrite save_dual_value_Ok in Hsave by done.
      injection Hsave as _ <-. destruct IH as (? & ? & ? & ?).
      by repeat split.
    + destruct (save_dual_value_Raise self v IH Hv) as (? & ? & Hr).
      rewrite Hr in Hsave. by injection Hsave as _ <-.
Qed.

End recovery_facts.

(** ** The rendering of shapes can be read back *)

Section rendering.
Implicit Types (s r : string) (c : ascii) (es : list string).

Lemma string_app_nil s : "" +:+ s = s.
Proof. done. Qed.

Lemma string_app_cons c s s' : String c s +:+ s' = String c (s +:+ s').
Proof. done. Qed.

Lemma string_app_assoc s1 s2 s3 : (s1 +:+ s2) +:+ s3 = s1 +:+ (s2 +:+ s3).
Proof.
  induction s1 as [|c s1 IH]; [done|].
  by rewrite !string_app_cons, IH.
Qed.

Lemma pretty_N_char_digit (x : N) : py.is_digit (pretty_N_char x) = true.
Proof. unfold pretty_N_char. by repeat case_match. Qed.

Lemma pretty_N_go_digits (x : N) s :
  py.all_digits s = true → py.all_digits (pretty_N_go x s) = true.
Proof.
  revert s. induction (N.lt_wf_0 x) as [x _ IH]; intros s Hs.
  destruct (decide (x = 0%N)) as [->|Hx]; [by rewrite pretty_N_go_0|].
  rewrite pretty_N_go_step by lia. apply IH.
  - apply N.div_lt; lia.
  - cbn. by rewrite pretty_N_char_digit.
Qed.

Lemma pretty_nat_digits (n : nat) : py.all_digits (pretty n) = true.
Proof.
  unfold pretty, pretty_nat, pretty, pretty_N.
  case_decide; [done|]. by apply pretty_N_go_digits.
Qed.

(** A run of digits ends at the first character that is not a digit. *)
Lemma digits_token s s' c c' r r' :
  py.all_digits s = true → py.all_digits s' = true →
  py.is_digit c = false → py.is_digit c' = false →
  s +:+ String c r = s' +:+ String c' r' → s = s' ∧ c = c' ∧ r = r'.
Proof.
  revert s'. induction s as [|d s IH]; intros [|d' s'];
    rewrite ?string_app_cons, ?string_app_nil; cbn;
    intros Hs Hs' Hc Hc' Heq; simplify_eq.
  - done.
  - apply andb_prop in Hs' as [? _]. congruence.
  - apply andb_prop in Hs as [? _]. congruence.
  - apply andb_prop in Hs as [_ Hs]. apply andb_prop in Hs' as [_ Hs'].
    destruct (IH s' Hs Hs' Hc Hc') as (-> & -> & ->); done.
Qed.

Lemma tuple_tail_cons e es r :
  py.tuple_tail (e :: es) +:+ r
  = String "," (String " " (e +:+ py.tuple_tail es +:+ r)).
Proof.
  cbn [py.tuple_tail].
  by rewrite !string_app_cons, string_app_nil, string_app_assoc.
Qed.

Lemma tuple_tail_head es r :
  ∃ c r', py.tuple_tail es +:+ r = String c r' ∧ py.is_digit c = false.
Proof.
  destruct es as [|e es]; [by eexists _, _|].
  rewrite tuple_tail_cons. by eexists _, _.
Qed.

Lemma tuple_tail_inj es es' r r' :
  Forall (λ e, py.all_digits e = true) es →
  Forall (λ e, py.all_digits e = true) es' →
  py.tuple_tail es +:+ r = py.tuple_tail es' +:+ r' → es = es' ∧ r = r'.
Proof.
  intros Hes. revert es'.
  induction Hes as [|e es He Hes IH]; intros es' Hes';
    destruct Hes' as [|e' es' He' Hes'];
    rewrite ?tuple_tail_cons; cbn [py.tuple_tail];
    rewrite ?string_app_cons, ?string_app_nil;
    intros Heq; simplify_eq; [done|].
  destruct (tuple_tail_head es r) as (c & t & Ht & Hc).
  destruct (tuple_tail_head es' r') as (c' & t' & Ht' & Hc').
  rewrite Ht, Ht' in Heq.
  destruct (digits_token _ _ _ _ _ _ He He' Hc Hc' Heq) as (-> & -> & ->).
  rewrite <- Ht' in Ht. by destruct (IH _ Hes' Ht) as [-> ->].
Qed.

Lemma repr_tuple_nil r : py.repr_tuple [] +:+ r = String "(" (String ")" r).
Proof. done. Qed.

Lemma repr_tuple_cons e es r :
  py.repr_tuple (e :: es) +:+ r
  = String "(" (e +:+ match es with
                      | [] => String "," (String ")" r)
                      | _ => py.tuple_tail es +:+ r
                      end).
Proof.
  destruct es as [|e' es]; cbn [py.repr_tuple];
    by rewrite !string_app_cons, string_app_nil, !string_app_assoc.
Qed.

(** The rendering of a tuple of integers is a self-delimiting prefix. *)
Lemma repr_tuple_inj es es' r r' :
  Forall (λ e, py.all_digits e = true) es →
  Forall (λ e, py.all_digits e = true) es' →
  py.repr_tuple es +:+ r = py.repr_tuple es' +:+ r' → es = es' ∧ r = r'.
Proof.
  assert (∀ es r,
    ∃ t, match es with
         | [] => String "," (String ")" r)
         | _ => py.tuple_tail es +:+ r
         end = String "," t) as Hcomma.
  { intros [|e1 es1] r1; [by eexists|].
    rewrite tuple_tail_cons. by eexists. }
  intros Hes Hes'.
  destruct Hes as [|e es He Hes]; destruct Hes' as [|e' es' He' Hes'];
    rewrite ?repr_tuple_nil, ?repr_tuple_cons; intros Heq; simplify_eq.
  - done.
  - exfalso. destruct (Hcomma es' r') as [t Ht]. rewrite Ht in *.
    by destruct (digits_token "" e' ")" "," r t) as (_ & ? & _).
  - exfalso. destruct (Hcomma es r) as [t Ht]. rewrite Ht in *.
    by destruct (digits_token e "" "," ")" t r') as (_ & ? & _).
  - destruct (Hcomma es r) as [t Ht].
    destruct (Hcomma es' r') as [t' Ht'].
    assert (e = e' ∧ t = t') as [-> ->].
    { rewrite Ht, Ht' in *.
      by destruct (digits_token e e' "," "," t t') as (? & _ & ?). }
    clear Heq. rewrite <- Ht' in Ht. clear Ht'.
    destruct Hes as [|e1 es He1 Hes]; destruct Hes' as [|e1' es' He1' Hes'].
    + by simplify_eq.
    + rewrite tuple_tail_cons in Ht. by simplify_eq.
    + rewrite tuple_tail_cons in Ht. by simplify_eq.
    + destruct (tuple_tail_inj (e1 :: es) (e1' :: es') r r') as [? ->];
        [by constructor..|done|by simplify_eq].
Qed.

Lemma str_shape_inj (xs xs' : list nat) r r' :
  py.str_shape xs +:+ r = py.str_shape xs' +:+ r' → xs = xs' ∧ r = r'.
Proof.
  intros Heq. apply repr_tuple_inj in Heq as [Heq ->].
  - split; [|done]. by apply (inj (fmap pretty)) in Heq.
  - apply Forall_fmap, Forall_true. intros ?; apply pretty_nat_digits.
  - apply Forall_fmap, Forall_true. intros ?; apply pretty_nat_digits.
Qed.

(** The three shapes are determined by the rendering of the triple. *)
Lemma str_shapes_inj (xs ys zs xs' ys' zs' : list nat) :
  py.str_shapes xs ys zs = py.str_shapes xs' ys' zs' →
  xs = xs' ∧ ys = ys' ∧ zs = zs'.
Proof.
  unfold py.str_shapes. cbn [py.repr_tuple py.tuple_tail].
  rewrite !string_app_cons, !string_app_nil. intros [= Heq].
  apply str_shape_inj in Heq as [-> Heq]. injection Heq as Heq.
  apply str_shape_inj in Heq as [-> Heq]. injection Heq as Heq.
  by apply str_shape_inj in Heq as [-> _].
Qed.

End rendering.

(** ** Arithmetic on 64 bits *)

Lemma int64_wrap_fits (v : Z) :
  (- 2 ^ 63 ≤ v < 2 ^ 63)%Z → int64_wrap v = v.
Proof.
  intros Hv. unfold int64_wrap. rewrite Z.mod_small; lia.
Qed.

Lemma int64_wrap_once (v : Z) :
  (2 ^ 63 ≤ v < 2 ^ 64)%Z → int64_wrap v = (v - 2 ^ 64)%Z.
Proof.
  intros Hv. unfold int64_wrap.
  rewrite <- (Z.mod_add (v + 2 ^ 63) (-1) (2 ^ 64)) by lia.
  rewrite Z.mod_small; lia.
Qed.

(** Shapes of at most two dimensions, each below [2^31], hold fewer
    than [2^64 / 3] elements. *)
Lemma small_dims_fit (S : list nat) :
  length S ≤ 2 → Forall (λ d, (Z.of_nat d < 2 ^ 31)%Z) S →
  (3 * Z.of_nat (np.prod S) < 2 ^ 64)%Z.
Proof.
  intros Hlen HS. destruct S as [|a [|b [|? ?]]]; cbn in Hlen; try lia.
  - cbn. lia.
  - apply Forall_cons_1 in HS as [Ha _]. unfold np.prod. cbn [foldr]. nia.
  - apply Forall_cons_1 in HS as [Ha HS]. apply Forall_cons_1 in HS as [Hb _].
    unfold np.prod. cbn [foldr]. nia.
Qed.

(** ** Elementwise bookkeeping *)

Section bookkeeping.
Context `{EG : ExpressionGraph}.

(** X14. An ExpCone or a RelEntrQuad over three operands of common
    shape [S], which holds [n] scalar elements, has [num_cones() = n] and
    [shape = (3,) + S], and [cone_sizes()] is a list of exactly [n]
    entries, each equal to 3, summing to [3 * n]. Its [size] is [3 * n]
    computed on 64 bits: it is [3 * n], and so
    [size = sum(cone_sizes()) = 3 * num_cones()], as long as [3 * n] is
    below [2^63]. *)
Theorem cone_bookkeeping (c : ExpCone.t) (q : RelEntrQuad.t)
    (S : list nat) (n : nat) :
  Forall (λ e, expr.shape e = S) [ExpCone.x c; ExpCone.y c; ExpCone.z c] →
  Forall (λ e, expr.shape e = S)
         [RelEntrQuad.x q; RelEntrQuad.y q; RelEntrQuad.z q] →
  np.prod S = n →
  (ExpCone.num_cones c = n ∧
   ExpCone.shape c = 3 :: S ∧
   length (ExpCone.cone_sizes c) = n ∧
   Forall (λ d, d = 3) (ExpCone.cone_sizes c) ∧
   sum_list (ExpCone.cone_sizes c) = 3 * ExpCone.num_cones c ∧
   ExpCone.size c = int64_wrap (3 * Z.of_nat n) ∧
   ((3 * Z.of_nat n < 2 ^ 63)%Z →
    ExpCone.size c = (3 * Z.of_nat n)%Z ∧
    ExpCone.size c = Z.of_nat (sum_list (ExpCone.cone_sizes c)) ∧
    ExpCone.size c = (3 * Z.of_nat (ExpCone.num_cones c))%Z)) ∧
  (RelEntrQuad.num_cones q = n ∧
   RelEntrQuad.shape q = 3 :: S ∧
   length (RelEntrQuad.cone_sizes q) = n ∧
   Forall (λ d, d = 3) (RelEntrQuad.cone_sizes q) ∧
   sum_list (RelEntrQuad.cone_sizes q) = 3 * RelEntrQuad.num_cones q ∧
   RelEntrQuad.size q = int64_wrap (3 * Z.of_nat n) ∧
   ((3 * Z.of_nat n < 2 ^ 63)%Z →
    RelEntrQuad.size q = (3 * Z.of_nat n)%Z ∧
    RelEntrQuad.size q = Z.of_nat (sum_list (RelEntrQuad.cone_sizes q)) ∧
    RelEntrQuad.size q = (3 * Z.of_nat (RelEntrQuad.num_cones q))%Z)).
Proof.
  intros Hc Hq Hn.
  apply Forall_cons_1 in Hc as [Hcx _]. apply Forall_cons_1 in Hq as [Hqx _].
  assert (ExpCone.num_cones c = n) as Hnc
    by (unfold ExpCone.num_cones, expr.size; congruence).
  assert (RelEntrQuad.num_cones q = n) as Hnq
    by (unfold RelEntrQuad.num_cones, expr.size; congruence).
  unfold ExpCone.size, ExpCone.shape, ExpCone.cone_sizes,
    RelEntrQuad.size, RelEntrQuad.shape, RelEntrQuad.cone_sizes.
  rewrite Hnc, Hnq, Hcx, Hqx, !length_replicate, !sum_list_replicate.
  split; (do 3 (split; [done|]));
    (split; [by apply Forall_replicate|]); (split; [lia|]);
    (split; [done|]); intros Hfit;
    rewrite int64_wrap_fits by lia; repeat split; lia.
Qed.

(** C2. Once the three arguments are cast, constructing an ExpCone or a
    RelEntrQuad fails, with the [ValueError] whose message ends in the
    rendering of the three shapes (from which the three shapes can be read
    back), exactly when the three shapes are not all identical, and then
    yields no instance; when the three shapes are identical the
    constructor returns the instance over the cast operands. *)
Theorem shape_validation (rx ry rz : Raw) (ex ey ez : Expression)
    (m k : Z) (constr_id : option Z) :
  cast_to_const rx = Ok ex → cast_to_const ry = Ok ey →
  cast_to_const rz = Ok ez →
  (¬ (expr.shape ex = expr.shape ey ∧ expr.shape ex = expr.shape ez) →
     let msg :=
       "All arguments must have the same shapes. Provided arguments haveshapes "
         +:+ py.str_shapes (expr.shape ex) (expr.shape ey) (expr.shape ez) in
     ExpCone.init rx ry rz constr_id = Raise (ValueError msg) ∧
     RelEntrQuad.init rx ry rz m k constr_id = Raise (ValueError msg) ∧
     ∀ xs ys zs, msg = shape_msg xs ys zs →
       xs = expr.shape ex ∧ ys = expr.shape ey ∧ zs = expr.shape ez) ∧
  (expr.shape ex = expr.shape ey ∧ expr.shape ex = expr.shape ez →
     (∃ c, ExpCone.init rx ry rz constr_id = Ok c ∧
           ExpCone.x c = ex ∧ ExpCone.y c = ey ∧ ExpCone.z c = ez) ∧
     (∃ q, RelEntrQuad.init rx ry rz m k constr_id = Ok q ∧
           RelEntrQuad.x q = ex ∧ RelEntrQuad.y q = ey ∧
           RelEntrQuad.z q = ez)).
Proof.
  intros Hx Hy Hz.
  rewrite (ExpCone_init_cast rx ry rz ex ey ez) by done.
  rewrite (RelEntrQuad_init_cast rx ry rz ex ey ez) by done.
  destruct (_ || _) eqn:Hs.
  - split; [|intros Heq%shapes_differ_spec; congruence].
    intros _. cbn zeta. split; [done|]. split; [done|].
    intros xs ys zs Hmsg.
    change (String "A" ?t +:+ ?r) with (shape_msg (expr.shape ex)
      (expr.shape ey) (expr.shape ez)) in Hmsg.
    unfold shape_msg in Hmsg. apply (inj (String.app _)) in Hmsg.
    by apply str_shapes_inj in Hmsg as (-> & -> & ->).
  - apply shapes_differ_spec in Hs. split; [done|]. intros _. eauto 10.
Qed.

End bookkeeping.

Lemma cone_bookkeeping_witness :
  ExpCone.size sample.cone = 12%Z ∧
  ExpCone.shape sample.cone = [3; 2; 2] ∧
  length (ExpCone.cone_sizes sample.cone) = 4 ∧
  RelEntrQuad.size sample.quad
    = Z.of_nat (sum_list (RelEntrQuad.cone_sizes sample.quad)).
Proof.
  destruct (cone_bookkeeping (EG := sample.graph)
              sample.cone sample.quad [2; 2] 4) as [Hc Hq].
  - repeat constructor.
  - repeat constructor.
  - reflexivity.
  - destruct Hc as (_ & Hshape & Hlen & _ & _ & _ & Hc).
    destruct Hq as (_ & _ & _ & _ & _ & _ & Hq).
    destruct Hc as (Hsize & _); [reflexivity|].
    destruct Hq as (_ & Hsum & _); [reflexivity|].
    exact (conj Hsize (conj Hshape (conj Hlen Hsum))).
Defined.

Lemma sample_init_same (t : sample.term) :
  ExpCone.init (EG := sample.graph) (inl t) (inl t) (inl t) None
  = Ok (@ExpCone.Build_t sample.graph t t t
          (Constraint_init (EG := sample.graph) [t; t; t] None)).
Proof.
  rewrite (ExpCone_init_cast (EG := sample.graph) (inl t) (inl t) (inl t)
             t t t None eq_refl eq_refl eq_refl).
  by rewrite (proj2 (shapes_differ_spec _ _ _)).
Qed.

Lemma big_dim_of_nat : Z.of_nat sample.big_dim = 2147483647%Z.
Proof. unfold sample.big_dim. apply Z2Nat.id. lia. Qed.

Lemma big_cone_count :
  Z.of_nat (ExpCone.num_cones sample.big_cone)
  = (2147483647 * 2147483647)%Z.
Proof.
  unfold ExpCone.num_cones, expr.size.
  change (expr.shape (ExpCone.x sample.big_cone))
    with [sample.big_dim; sample.big_dim].
  unfold np.prod. cbn [foldr].
  rewrite !Nat2Z.inj_mul, big_dim_of_nat. reflexivity.
Qed.

(** C1. [size] should be [3 * n] for every instance, [n] being the
    number of scalar elements of the operands, and equal to
    [sum(cone_sizes())]. The code misses this where the product leaves 64
    bits: the constructor accepts operands of shape
    [(2^31 - 1, 2^31 - 1)], their count is [(2^31 - 1)^2], three times it
    is 13835058042397261827, and [size] is -4611686031312289789. *)
Lemma cone_size_wraps_counterexample :
  ExpCone.init (EG := sample.graph)
    (inl sample.big) (inl sample.big) (inl sample.big) None
    = Ok sample.big_cone ∧
  (3 * Z.of_nat (ExpCone.num_cones sample.big_cone)
    = 13835058042397261827)%Z ∧
  ExpCone.size sample.big_cone = (-4611686031312289789)%Z ∧
  ExpCone.size sample.big_cone
    ≠ (3 * Z.of_nat (ExpCone.num_cones sample.big_cone))%Z.
Proof.
  assert (ExpCone.size sample.big_cone = (-4611686031312289789)%Z) as Hsize.
  { unfold ExpCone.size. rewrite big_cone_count. reflexivity. }
  split; [|split; [|split]].
  - exact (sample_init_same sample.big).
  - rewrite big_cone_count. reflexivity.
  - exact Hsize.
  - rewrite Hsize, big_cone_count. discriminate.
Qed.

Lemma shape_validation_witness :
  ExpCone.init (EG := sample.graph)
    (inl (sample.Var [2] None)) (inr sample.c3) (inl (sample.Var [2] None)) None
  = Raise (ValueError
      "All arguments must have the same shapes. Provided arguments haveshapes ((2,), (3,), (2,))").
Proof.
  destruct (shape_validation (EG := sample.graph)
              (inl (sample.Var [2] None)) (inr sample.c3)
              (inl (sample.Var [2] None))
              (sample.Var [2] None) (sample.Const sample.c3)
              (sample.Var [2] None) 1%Z 1%Z None
              eq_refl eq_refl eq_refl) as [Hfail _].
  destruct Hfail as [Hexp _].
  - intros [Hxy _]. discriminate Hxy.
  - exact Hexp.
Defined.

(** ** Dual values of an ExpCone *)

Section recovery.
Context `{EG : ExpressionGraph}.

(** C3. For an ExpCone over operands of shape [S] with [n] elements and
    a flat vector of length [3 * n] laid out cone by cone,
    [save_dual_value] does what reshaping to [(n, 3)], splitting
    column-wise and reshaping each column to [S] does: it stores three
    arrays of shape [S] in the slots of x, y and z, in that order, entry
    [i] of the three being entries [3i], [3i+1], [3i+2] of the vector,
    and leaves the rest of the instance alone. A vector interleaved from
    three per-operand sequences gives those three sequences back, shaped
    [S]. *)
Theorem dual_value_recovery (c : ExpCone.t) (l : list Scalar)
    (S : list nat) (n : nat) :
  ExpCone.reachable c → expr.shape (ExpCone.x c) = S → np.prod S = n →
  length l = 3 * n →
  ∃ dx dy dz,
    ExpCone.save_dual_value (np.vector l) c
      = (Ok (), ExpCone.with_duals c dx dy dz) ∧
    ExpCone.recover_spec c (np.vector l) = Ok [dx; dy; dz] ∧
    (np.shape dx = S ∧ length (np.data dx) = n ∧
     ∀ i, i < n → np.data dx !! i = l !! (i * 3 + 0)) ∧
    (np.shape dy = S ∧ length (np.data dy) = n ∧
     ∀ i, i < n → np.data dy !! i = l !! (i * 3 + 1)) ∧
    (np.shape dz = S ∧ length (np.data dz) = n ∧
     ∀ i, i < n → np.data dz !! i = l !! (i * 3 + 2)) ∧
    (∀ xs ys zs,
       length xs = n → length ys = n → length zs = n →
       l = np.interleave3 xs ys zs →
       dx = np.NDArray S xs ∧ dy = np.NDArray S ys ∧ dz = np.NDArray S zs).
Proof.
  intros Hc HS Hn Hl.
  pose proof (ExpCone_reachable_invariant c Hc) as Hinv.
  pose proof Hinv as (Hy & Hz & _ & _).
  assert (ExpCone.num_cones c = n) as Hnc
    by (unfold ExpCone.num_cones, expr.size; congruence).
  eexists _, _, _. split; [|split].
  - apply save_dual_value_Ok; [done|]. unfold np.size. cbn. lia.
  - unfold ExpCone.recover_spec. rewrite reshape_explicit_rows.
    rewrite bool_decide_eq_true_2 by (unfold np.size; cbn; lia).
    cbn [mbind result_bind mapM np.vector np.data].
    rewrite Hnc, !recover_column by (done || lia).
    rewrite HS, bool_decide_eq_true_2 by done.
    cbn. by rewrite <- Hy, <- Hz, HS.
  - rewrite <- Hy, <- Hz, HS. cbn [np.shape np.data np.vector].
    split; [|split; [|split]].
    1-3: split; [done|]; split; [by apply length_every_third|];
      intros i Hi; apply (lookup_every_third _ _ n); (lia || done).
    intros xs ys zs Hxs Hys Hzs ->.
    destruct (every_third_interleave3 xs ys zs) as (-> & -> & ->);
      (done || congruence).
Qed.

(** C4. On an ExpCone, [save_dual_value] raises, and what it raises is
    numpy's reshape error, exactly when the length of the vector differs
    from [3 * num_cones()]; when it raises, the instance (its dual-value
    slots included) is as it was. In terms of [size], which is that
    product on 64 bits: for a vector of fewer than [2^63] elements and an
    instance whose [3 * num_cones()] is below [2^64] (any instance over
    operands of at most two dimensions below [2^31]), it raises exactly
    when the length differs from [size]. *)
Theorem dual_value_length_check (c : ExpCone.t) (l : list Scalar) :
  ExpCone.reachable c →
  let '(r, c') := ExpCone.save_dual_value (np.vector l) c in
  (raises r ↔ length l ≠ 3 * ExpCone.num_cones c) ∧
  ((3 * Z.of_nat (ExpCone.num_cones c) < 2 ^ 64)%Z →
   (Z.of_nat (length l) < 2 ^ 63)%Z →
   (raises r ↔ Z.of_nat (length l) ≠ ExpCone.size c)) ∧
  (raises r → (∃ total newshape, r = Raise (ReshapeError total newshape)) ∧
              c' = c).
Proof.
  intros Hinv%ExpCone_reachable_invariant.
  assert (∀ r, (raises r ↔ length l ≠ 3 * ExpCone.num_cones c) →
    (3 * Z.of_nat (ExpCone.num_cones c) < 2 ^ 64)%Z →
    (Z.of_nat (length l) < 2 ^ 63)%Z →
    (raises (A := ()) r ↔ Z.of_nat (length l) ≠ ExpCone.size c)) as Hsize.
  { intros r Hr H64 Hl. rewrite Hr. unfold ExpCone.size.
    destruct (decide (3 * Z.of_nat (ExpCone.num_cones c) < 2 ^ 63)%Z).
    - rewrite int64_wrap_fits by lia. lia.
    - rewrite int64_wrap_once by lia. lia. }
  destruct (decide (length l = 3 * ExpCone.num_cones c)) as [Hl|Hl].
  - rewrite save_dual_value_Ok by done.
    assert (raises (Ok ()) ↔ length l ≠ 3 * ExpCone.num_cones c) as Hr
      by (cbn; split; done).
    split; [done|]. split; [by apply Hsize|done].
  - destruct (save_dual_value_Raise c (np.vector l) Hinv Hl)
      as (total & newshape & ->).
    assert (raises (A := ()) (Raise (ReshapeError total newshape))
            ↔ length l ≠ 3 * ExpCone.num_cones c) as Hr
      by (cbn; split; done).
    split; [done|]. split; [by apply Hsize|]. eauto.
Qed.

End recovery.

Lemma dual_value_recovery_witness :
  ExpCone.save_dual_value (EG := sample.graph)
    (np.vector [1; 2; 3; 4; 5; 6; 7; 8; 9; 10; 11; 12]%Z) sample.cone
  = (Ok (), ExpCone.with_duals (EG := sample.graph) sample.cone
              (np.NDArray [2; 2] [1; 4; 7; 10]%Z)
              (np.NDArray [2; 2] [2; 5; 8; 11]%Z)
              (np.NDArray [2; 2] [3; 6; 9; 12]%Z)).
Proof.
  destruct (dual_value_recovery (EG := sample.graph) sample.cone
              [1; 2; 3; 4; 5; 6; 7; 8; 9; 10; 11; 12]%Z [2; 2] 4
              sample_cone_reachable eq_refl eq_refl eq_refl)
    as (dx & dy & dz & Hsave & _ & _ & _ & _ & Hround).
  destruct (Hround [1; 4; 7; 10]%Z [2; 5; 8; 11]%Z [3; 6; 9; 12]%Z
              eq_refl eq_refl eq_refl eq_refl) as (Hx & Hy & Hz).
  subst dx dy dz. exact Hsave.
Defined.

Lemma dual_value_length_check_witness :
  let '(r, c') := ExpCone.save_dual_value (EG := sample.graph)
                    (np.vector [1; 2; 3; 4; 5; 6; 7]%Z) sample.cone in
  raises r ∧ c' = sample.cone.
Proof.
  pose proof (dual_value_length_check (EG := sample.graph) sample.cone
                [1; 2; 3; 4; 5; 6; 7]%Z sample_cone_reachable) as H.
  destruct (ExpCone.save_dual_value _ _) as [r c'].
  destruct H as [[_ Hraise] [_ Hframe]].
  assert (raises r) as Hr by (apply Hraise; discriminate).
  exact (conj Hr (proj2 (Hframe Hr))).
Defined.

(** ** Conversion to the quadrature approximation *)

Section conversion.
Context `{EG : ExpressionGraph}.

Lemma as_quad_approx_Ok (c : ExpCone.t) (m k : Z) :
  ExpCone.invariant c →
  ExpCone.as_quad_approx c m k =
  Ok {| RelEntrQuad.x := ExpCone.y c; RelEntrQuad.y := ExpCone.z c;
        RelEntrQuad.z := neg (ExpCone.x c);
        RelEntrQuad.m := m; RelEntrQuad.k := k;
        RelEntrQuad.base :=
          Constraint_init [ExpCone.y c; ExpCone.z c; neg (ExpCone.x c)]
                          None |}.
Proof.
  intros (Hy & Hz & _). unfold ExpCone.as_quad_approx.
  rewrite (RelEntrQuad_init_cast _ _ _ (ExpCone.y c) (ExpCone.z c)
             (neg (ExpCone.x c)))
    by apply cast_to_const_expression.
  assert (bool_decide (expr.shape (ExpCone.y c) ≠ expr.shape (ExpCone.z c))
          || bool_decide (expr.shape (ExpCone.y c)
                            ≠ expr.shape (neg (ExpCone.x c))) = false)
    as ->; [|done].
  apply shapes_differ_spec. rewrite shape_neg. split; congruence.
Qed.

(** C5. For an ExpCone with operands [(x, y, z)] and any [m], [k],
    [as_quad_approx(m, k)] returns a RelEntrQuad whose operands are
    [(y, z, -x)], the same [y] and [z] terms and the negation of [x] in
    the third slot, and whose parameters are the [m] and [k] supplied. *)
Theorem as_quad_approx_operands (c : ExpCone.t) (m k : Z) :
  ExpCone.reachable c →
  ∃ q, ExpCone.as_quad_approx c m k = Ok q ∧
       RelEntrQuad.x q = ExpCone.y c ∧
       RelEntrQuad.y q = ExpCone.z c ∧
       RelEntrQuad.z q = neg (ExpCone.x c) ∧
       args (RelEntrQuad.base q)
         = [ExpCone.y c; ExpCone.z c; neg (ExpCone.x c)] ∧
       RelEntrQuad.m q = m ∧ RelEntrQuad.k q = k.
Proof.
  intros Hinv%ExpCone_reachable_invariant.
  rewrite as_quad_approx_Ok by done. eexists. by repeat split.
Qed.

(** C6. For every ExpCone and positive integers [m], [k],
    [as_quad_approx(m, k).get_data()] is the pair [m], [k] as
    supplied. *)
Theorem as_quad_approx_get_data (c : ExpCone.t) (m k : Z) :
  ExpCone.reachable c → (0 < m)%Z → (0 < k)%Z →
  ∃ q, ExpCone.as_quad_approx c m k = Ok q ∧ RelEntrQuad.get_data q = [m; k].
Proof.
  intros Hinv%ExpCone_reachable_invariant _ _.
  rewrite as_quad_approx_Ok by done. by eexists.
Qed.

(** C10, as the code has it. Neither [as_quad_approx] nor the
    RelEntrQuad constructor looks at [m] and [k]: any two integers,
    positive or not, are stored as given, and whether a construction
    succeeds is decided by the operands alone. *)
Theorem quad_parameters_unchecked (c : ExpCone.t) (rx ry rz : Raw)
    (m k m' k' : Z) (constr_id : option Z) :
  ExpCone.reachable c →
  (∃ q, ExpCone.as_quad_approx c m k = Ok q ∧
        RelEntrQuad.m q = m ∧ RelEntrQuad.k q = k) ∧
  (∀ q, RelEntrQuad.init rx ry rz m k constr_id = Ok q →
        RelEntrQuad.m q = m ∧ RelEntrQuad.k q = k) ∧
  (raises (RelEntrQuad.init rx ry rz m k constr_id) ↔
   raises (RelEntrQuad.init rx ry rz m' k' constr_id)).
Proof.
  intros Hinv%ExpCone_reachable_invariant. split; [|split].
  - rewrite as_quad_approx_Ok by done. by eexists.
  - unfold RelEntrQuad.init.
    destruct (cast_to_const rx), (cast_to_const ry), (cast_to_const rz);
      cbn; try done.
    destruct (_ || _); [done|]. by intros q [= <-].
  - unfold RelEntrQuad.init.
    destruct (cast_to_const rx), (cast_to_const ry), (cast_to_const rz);
      cbn; try done.
    by destruct (_ || _).
Qed.

End conversion.

Lemma as_quad_approx_operands_witness :
  ∃ q, ExpCone.as_quad_approx (EG := sample.graph) sample.cone 3 2 = Ok q ∧
       RelEntrQuad.x q = sample.Const sample.c4 ∧
       RelEntrQuad.y q = sample.w ∧
       RelEntrQuad.z q = sample.Neg sample.u.
Proof.
  destruct (as_quad_approx_operands (EG := sample.graph) sample.cone 3 2
              sample_cone_reachable) as (q & Hq & Hx & Hy & Hz & _).
  exact (ex_intro _ q (conj Hq (conj Hx (conj Hy Hz)))).
Defined.

Lemma as_quad_approx_get_data_witness :
  ∃ q, ExpCone.as_quad_approx (EG := sample.graph) sample.cone 3 2 = Ok q ∧
       RelEntrQuad.get_data q = [3; 2]%Z.
Proof.
  apply (as_quad_approx_get_data (EG := sample.graph) sample.cone 3 2
           sample_cone_reachable); reflexivity.
Defined.

(** The claim that a non-positive parameter is not accepted fails: the
    conversion with [m = 0] and [k = -1] returns an instance. *)
Lemma quad_parameters_positive_counterexample :
  ¬ (∀ (m k : Z) q,
       ExpCone.as_quad_approx (EG := sample.graph) sample.cone m k = Ok q →
       (0 < m)%Z ∧ (0 < k)%Z).
Proof.
  intros H. destruct (H 0%Z (-1)%Z _ eq_refl) as [Hm _]. discriminate Hm.
Qed.

Lemma quad_parameters_unchecked_witness :
  ∃ q, ExpCone.as_quad_approx (EG := sample.graph) sample.cone 0 (-1) = Ok q ∧
       RelEntrQuad.m q = 0%Z ∧ RelEntrQuad.k q = (-1)%Z.
Proof.
  exact (proj1 (quad_parameters_unchecked (EG := sample.graph) sample.cone
                  (inl sample.u) (inl sample.u) (inl sample.u)
                  0 (-1) 1 1 None sample_cone_reachable)).
Defined.

(** ** Convexity certification *)

Section certification.
Context `{EG : ExpressionGraph}.

Lemma all_affine_spec (es : list Expression) (active : bool) :
  all_affine es active = (forallb (is_affine active) es, active).
Proof. done. Qed.

Lemma dpp_scope_all_affine (es : list Expression) (active : bool) :
  scopes.dpp_scope (all_affine es) active
  = (forallb (is_affine true) es, active).
Proof. done. Qed.

Lemma forallb_operands (f : Expression → bool) (ex ey ez : Expression) :
  forallb f [ex; ey; ez] = true ↔ Forall (λ e, f e = true) [ex; ey; ez].
Proof. rewrite forallb_forall, Forall_forall. by setoid_rewrite list_elem_of_In. Qed.

(** C7. For an ExpCone and for a RelEntrQuad, [is_dcp] is true exactly
    when every operand is affine; with the [dpp] flag the same check over
    the same operands runs with the parametrized scope switched on, and
    the ambient scope is afterwards what it was; and the two classes
    answer alike on the same operands. *)
Theorem is_dcp_affine (c : ExpCone.t) (q : RelEntrQuad.t) (active : bool) :
  ExpCone.reachable c → RelEntrQuad.reachable q →
  ((ExpCone.is_dcp false c active).1 = true ↔
     Forall (λ e, is_affine active e = true)
            [ExpCone.x c; ExpCone.y c; ExpCone.z c]) ∧
  ((ExpCone.is_dcp true c active).1 = true ↔
     Forall (λ e, is_affine true e = true)
            [ExpCone.x c; ExpCone.y c; ExpCone.z c]) ∧
  ((RelEntrQuad.is_dcp false q active).1 = true ↔
     Forall (λ e, is_affine active e = true)
            [RelEntrQuad.x q; RelEntrQuad.y q; RelEntrQuad.z q]) ∧
  ((RelEntrQuad.is_dcp true q active).1 = true ↔
     Forall (λ e, is_affine true e = true)
            [RelEntrQuad.x q; RelEntrQuad.y q; RelEntrQuad.z q]) ∧
  (∀ dpp, (ExpCone.is_dcp dpp c active).2 = active ∧
          (RelEntrQuad.is_dcp dpp q active).2 = active) ∧
  ([ExpCone.x c; ExpCone.y c; ExpCone.z c]
     = [RelEntrQuad.x q; RelEntrQuad.y q; RelEntrQuad.z q] →
   ∀ dpp, ExpCone.is_dcp dpp c active = RelEntrQuad.is_dcp dpp q active).
Proof.
  intros (_ & _ & Hc & _)%ExpCone_reachable_invariant
         (_ & _ & Hq & _)%RelEntrQuad_reachable_invariant.
  unfold ExpCone.is_dcp, RelEntrQuad.is_dcp. rewrite Hc, Hq.
  rewrite !dpp_scope_all_affine, !all_affine_spec. cbn [fst snd].
  rewrite !forallb_operands.
  repeat (split; [done|]). split.
  - intros []; by rewrite ?dpp_scope_all_affine, ?all_affine_spec.
  - intros -> []; done.
Qed.

End certification.

Lemma is_dcp_affine_witness :
  (ExpCone.is_dcp (EG := sample.graph) false sample.cone false).1 = true ∧
  (RelEntrQuad.is_dcp (EG := sample.graph) true sample.quad false).1 = true.
Proof.
  destruct (is_dcp_affine (EG := sample.graph) sample.cone sample.quad false
              sample_cone_reachable sample_quad_reachable)
    as (Hplain & _ & _ & Hstrict & _).
  split.
  - apply Hplain. repeat constructor.
  - apply Hstrict. repeat constructor.
Defined.

(** ** Dual values of a RelEntrQuad *)

Section quad_recovery.
Context `{EG : ExpressionGraph}.

(** C8. On a RelEntrQuad, [save_dual_value] does nothing: whatever the
    vector, it returns [None] without raising and the instance, every
    dual-value slot included, is as it was. *)
Theorem quad_save_dual_value_noop (q : RelEntrQuad.t)
    (value : np.ndarray Scalar) :
  RelEntrQuad.save_dual_value value q = (Ok (), q) ∧
  dual_variables (RelEntrQuad.base (RelEntrQuad.save_dual_value value q).2)
    = dual_variables (RelEntrQuad.base q).
Proof. done. Qed.

End quad_recovery.

(** ** The residual query *)

(** The shape of goal left once the three values are known to be
    present or absent. *)
Ltac residual_none :=
  split;
  [ first [ by intros [?|[?|?]] | done ]
  | first [ done
          | intros _; first [ by left | by right; left | by right; right ] ] ].

Section residual.
Context `{EG : ExpressionGraph} `{ML : Modelling}.

Lemma ExpCone_init_shaped (c : ExpCone.t) (x' y' z' : Expression) :
  ExpCone.invariant c →
  expr.shape x' = expr.shape (ExpCone.x c) →
  expr.shape y' = expr.shape (ExpCone.y c) →
  expr.shape z' = expr.shape (ExpCone.z c) →
  ExpCone.init (as_raw x') (as_raw y') (as_raw z') None
  = Ok {| ExpCone.x := x'; ExpCone.y := y'; ExpCone.z := z';
          ExpCone.base := Constraint_init [x'; y'; z'] None |}.
Proof.
  intros (Hy & Hz & _) Hx' Hy' Hz'.
  rewrite (ExpCone_init_cast _ _ _ _ _ _ _ (cast_to_const_expression _)
             (cast_to_const_expression _) (cast_to_const_expression _)).
  by rewrite (proj2 (shapes_differ_spec _ _ _)) by (split; congruence).
Qed.

Lemma RelEntrQuad_init_shaped (q : RelEntrQuad.t) (x' y' z' : Expression)
    (m k : Z) :
  RelEntrQuad.invariant q →
  expr.shape x' = expr.shape (RelEntrQuad.x q) →
  expr.shape y' = expr.shape (RelEntrQuad.y q) →
  expr.shape z' = expr.shape (RelEntrQuad.z q) →
  RelEntrQuad.init (as_raw x') (as_raw y') (as_raw z') m k None
  = Ok {| RelEntrQuad.x := x'; RelEntrQuad.y := y'; RelEntrQuad.z := z';
          RelEntrQuad.m := m; RelEntrQuad.k := k;
          RelEntrQuad.base := Constraint_init [x'; y'; z'] None |}.
Proof.
  intros (Hy & Hz & _) Hx' Hy' Hz'.
  rewrite (RelEntrQuad_init_cast _ _ _ _ _ _ _ _ _
             (cast_to_const_expression _)
             (cast_to_const_expression _) (cast_to_const_expression _)).
  by rewrite (proj2 (shapes_differ_spec _ _ _)) by (split; congruence).
Qed.

(** The values stacked by a projection whose cone accepts the operand
    [d] thrice. *)
Lemma stacked_values_projection {C} (d : Expression) (xs ys zs : list nat)
    (values : list (np.ndarray Scalar))
    (cone : Expression → Expression → Expression → result C) (c : C) :
  cone d d d = Ok c →
  stacked_values d (projection xs ys zs values cone) = [values].
Proof. intros Hc. cbn. rewrite Hc. reflexivity. Qed.

(** C9. For an ExpCone and for a RelEntrQuad, the residual query
    returns [None], without a call to the modelling layer and without
    raising, exactly when at least one of the three operands has no value
    assigned; exactly when all three values are assigned it goes on to
    the nested projection: three calls of [Variable] with the operand
    shapes, the same kind of cone over the three variables (with [m] and
    [k] copied for a RelEntrQuad), whose construction succeeds, and the
    solve of the problem that minimises the distance to the three operand
    values subject to that cone. *)
Theorem residual_undefined (c : ExpCone.t) (q : RelEntrQuad.t) :
  ExpCone.reachable c → RelEntrQuad.reachable q →
  (unassigned (ExpCone.x c) (ExpCone.y c) (ExpCone.z c) ↔
     ExpCone.residual c = Ret None) ∧
  (∀ xv yv zv,
     (expr.value (ExpCone.x c) = Some xv ∧
      expr.value (ExpCone.y c) = Some yv ∧
      expr.value (ExpCone.z c) = Some zv) ↔
     ExpCone.residual c =
       projection (expr.shape (ExpCone.x c)) (expr.shape (ExpCone.y c))
                  (expr.shape (ExpCone.z c)) [xv; yv; zv]
                  (λ x' y' z',
                     ExpCone.init (as_raw x') (as_raw y') (as_raw z') None)) ∧
  (∀ x' y' z',
     expr.shape x' = expr.shape (ExpCone.x c) →
     expr.shape y' = expr.shape (ExpCone.y c) →
     expr.shape z' = expr.shape (ExpCone.z c) →
     ∃ c', ExpCone.init (as_raw x') (as_raw y') (as_raw z') None = Ok c' ∧
           ExpCone.x c' = x' ∧ ExpCone.y c' = y' ∧ ExpCone.z c' = z') ∧
  (unassigned (RelEntrQuad.x q) (RelEntrQuad.y q) (RelEntrQuad.z q) ↔
     RelEntrQuad.residual q = Ret None) ∧
  (∀ xv yv zv,
     (expr.value (RelEntrQuad.x q) = Some xv ∧
      expr.value (RelEntrQuad.y q) = Some yv ∧
      expr.value (RelEntrQuad.z q) = Some zv) ↔
     RelEntrQuad.residual q =
       projection (expr.shape (RelEntrQuad.x q))
                  (expr.shape (RelEntrQuad.y q))
                  (expr.shape (RelEntrQuad.z q)) [xv; yv; zv]
                  (λ x' y' z',
                     RelEntrQuad.init (as_raw x') (as_raw y') (as_raw z')
                       (RelEntrQuad.m q) (RelEntrQuad.k q) None)) ∧
  (∀ x' y' z',
     expr.shape x' = expr.shape (RelEntrQuad.x q) →
     expr.shape y' = expr.shape (RelEntrQuad.y q) →
     expr.shape z' = expr.shape (RelEntrQuad.z q) →
     ∃ q', RelEntrQuad.init (as_raw x') (as_raw y') (as_raw z')
             (RelEntrQuad.m q) (RelEntrQuad.k q) None = Ok q' ∧
           RelEntrQuad.x q' = x' ∧ RelEntrQuad.y q' = y' ∧
           RelEntrQuad.z q' = z' ∧
           RelEntrQuad.m q' = RelEntrQuad.m q ∧
           RelEntrQuad.k q' = RelEntrQuad.k q).
Proof.
  intros Hc%ExpCone_reachable_invariant Hq%RelEntrQuad_reachable_invariant.
  pose proof (ExpCone_init_shaped c (ExpCone.x c) (ExpCone.x c) (ExpCone.x c)
                Hc eq_refl (proj1 Hc) (proj1 (proj2 Hc))) as Hdc.
  pose proof (RelEntrQuad_init_shaped q (RelEntrQuad.x q) (RelEntrQuad.x q)
                (RelEntrQuad.x q) (RelEntrQuad.m q) (RelEntrQuad.k q)
                Hq eq_refl (proj1 Hq) (proj1 (proj2 Hq))) as Hdq.
  split; [|split; [|split; [|split; [|split]]]].
  - unfold unassigned, ExpCone.residual.
    destruct (expr.value (ExpCone.x c)), (expr.value (ExpCone.y c)),
      (expr.value (ExpCone.z c)); residual_none.
  - intros xv yv zv. split.
    + intros (Hx & Hy & Hz). unfold ExpCone.residual.
      by rewrite Hx, Hy, Hz.
    + intros Hres.
      apply (f_equal (stacked_values (ExpCone.x c))) in Hres.
      erewrite (stacked_values_projection (ExpCone.x c) _ _ _ _
                  (λ x' y' z',
                     ExpCone.init (as_raw x') (as_raw y') (as_raw z') None))
        in Hres by exact Hdc.
      unfold ExpCone.residual in Hres.
      destruct (expr.value (ExpCone.x c)), (expr.value (ExpCone.y c)),
        (expr.value (ExpCone.z c)); try done.
      cbn in Hres. rewrite Hdc in Hres. cbn in Hres. by simplify_eq.
  - intros x' y' z' Hx' Hy' Hz'. eexists.
    split; [by apply (ExpCone_init_shaped c)|done].
  - unfold unassigned, RelEntrQuad.residual.
    destruct (expr.value (RelEntrQuad.x q)), (expr.value (RelEntrQuad.y q)),
      (expr.value (RelEntrQuad.z q)); residual_none.
  - intros xv yv zv. split.
    + intros (Hx & Hy & Hz). unfold RelEntrQuad.residual.
      by rewrite Hx, Hy, Hz.
    + intros Hres.
      apply (f_equal (stacked_values (RelEntrQuad.x q))) in Hres.
      erewrite (stacked_values_projection (RelEntrQuad.x q) _ _ _ _
                  (λ x' y' z',
                     RelEntrQuad.init (as_raw x') (as_raw y') (as_raw z')
                       (RelEntrQuad.m q) (RelEntrQuad.k q) None))
        in Hres by exact Hdq.
      unfold RelEntrQuad.residual in Hres.
      destruct (expr.value (RelEntrQuad.x q)), (expr.value (RelEntrQuad.y q)),
        (expr.value (RelEntrQuad.z q)); try done.
      cbn in Hres. rewrite Hdq in Hres. cbn in Hres. by simplify_eq.
  - intros x' y' z' Hx' Hy' Hz'. eexists.
    split; [by apply (RelEntrQuad_init_shaped q)|done].
Qed.

End residual.

Lemma residual_undefined_witness :
  ExpCone.residual (EG := sample.graph) (ML := sample.layer) sample.cone
    = Ret None ∧
  RelEntrQuad.residual (EG := sample.graph) (ML := sample.layer)
    sample.solved_quad
    = projection (EG := sample.graph) (ML := sample.layer)
        [2; 2] [2; 2] [2; 2]
        [sample.c4; np.NDArray [2; 2] [5; 6; 7; 8]%Z;
         np.NDArray [2; 2] [-5; -6; -7; -8]%Z]
        (λ x' y' z', RelEntrQuad.init (EG := sample.graph)
                       (inl x') (inl y') (inl z') 3 2 None).
Proof.
  destruct (residual_undefined (EG := sample.graph) (ML := sample.layer)
              sample.cone sample.solved_quad sample_cone_reachable
              sample_solved_quad_reachable)
    as (Hnone & _ & _ & _ & Hsolve & _).
  split.
  - apply Hnone. left. reflexivity.
  - apply (Hsolve sample.c4 (np.NDArray [2; 2] [5; 6; 7; 8]%Z)
             (np.NDArray [2; 2] [-5; -6; -7; -8]%Z)).
    repeat split.
Defined.

(** * Further properties of the two classes *)

(** ** What [save_dual_value] leaves alone *)

Section frame.
Context `{EG : ExpressionGraph}.
Implicit Types (self c : ExpCone.t) (v : np.ndarray Scalar).

Lemma same_but_duals_refl self : ExpCone.same_but_duals self self.
Proof. by repeat split. Qed.

Lemma same_but_duals_trans c1 c2 c3 :
  ExpCone.same_but_duals c1 c2 → ExpCone.same_but_duals c2 c3 →
  ExpCone.same_but_duals c1 c3.
Proof.
  intros (? & ? & ? & ? & ? & ?) (? & ? & ? & ? & ? & ?).
  repeat split; congruence.
Qed.

Lemma preserves_lift {A} (r : result A) : ExpCone.preserves (lift r).
Proof. intros self. apply same_but_duals_refl. Qed.

Lemma preserves_self : ExpCone.preserves ExpCone.self_.
Proof. intros self. apply same_but_duals_refl. Qed.

Lemma preserves_bind {A B} (m : Method ExpCone.t A)
    (f : A → Method ExpCone.t B) :
  ExpCone.preserves m → (∀ a, ExpCone.preserves (f a)) →
  ExpCone.preserves (m ≫= f).
Proof.
  intros Hm Hf self. unfold mbind, method_bind.
  specialize (Hm self). destruct (m self) as [[a|e] self1]; [|done].
  eapply same_but_duals_trans; [exact Hm|apply Hf].
Qed.

Lemma preserves_dual_save_value i dv :
  ExpCone.preserves (ExpCone.dual_save_value i dv).
Proof.
  intros self. unfold ExpCone.dual_save_value, save_value.
  case_bool_decide; cbn [snd ExpCone.x ExpCone.y ExpCone.z ExpCone.base
    args constr_id dual_variables]; repeat split; try done.
  apply length_insert.
Qed.

Lemma preserves_save_dual_value v :
  ExpCone.preserves (ExpCone.save_dual_value v).
Proof.
  unfold ExpCone.save_dual_value.
  repeat first
    [ apply preserves_bind; [|intros ?]
    | apply preserves_self
    | apply preserves_lift
    | apply preserves_dual_save_value ].
Qed.

End frame.

Section frame_queries.
Context `{EG : ExpressionGraph} `{ML : Modelling}.

(** X1. Whatever array it is given, and whether it raises or not,
    [save_dual_value] on an ExpCone writes dual-value slots only: the
    operands, the operand list and the identifier stay, and so does every
    answer computed from them: [num_cones], [size], [shape], [cone_sizes],
    [is_dcp], [is_dqcp], [residual] and [as_quad_approx]. *)
Theorem save_dual_value_keeps_queries (c : ExpCone.t)
    (v : np.ndarray Scalar) :
  let c' := (ExpCone.save_dual_value v c).2 in
  ExpCone.same_but_duals c c' ∧
  ExpCone.num_cones c' = ExpCone.num_cones c ∧
  ExpCone.size c' = ExpCone.size c ∧
  ExpCone.shape c' = ExpCone.shape c ∧
  ExpCone.cone_sizes c' = ExpCone.cone_sizes c ∧
  (∀ dpp, ExpCone.is_dcp dpp c' = ExpCone.is_dcp dpp c) ∧
  ExpCone.is_dqcp c' = ExpCone.is_dqcp c ∧
  ExpCone.residual c' = ExpCone.residual c ∧
  (∀ m k, ExpCone.as_quad_approx c' m k = ExpCone.as_quad_approx c m k).
Proof.
  intros c'. pose proof (preserves_save_dual_value v c) as Hsame.
  fold c' in Hsame. split; [done|].
  destruct Hsame as (Hx & Hy & Hz & Hargs & _ & _).
  unfold ExpCone.size, ExpCone.cone_sizes, ExpCone.num_cones, ExpCone.shape,
    ExpCone.is_dqcp, ExpCone.is_dcp, ExpCone.residual, ExpCone.as_quad_approx.
  rewrite Hx, Hy, Hz, Hargs. by repeat split.
Qed.

End frame_queries.

(** ** More on the recovery of dual values *)

Section recovery_more.
Context `{EG : ExpressionGraph}.
Implicit Types (c : ExpCone.t) (v : np.ndarray Scalar) (l : list Scalar).

Lemma interleave3_every_third l r :
  length l = 3 * r →
  np.interleave3 (np.every_third 0 l) (np.every_third 1 l)
                 (np.every_third 2 l) = l.
Proof.
  revert l. induction r as [|r IH]; intros l Hl.
  - by destruct l.
  - destruct l as [|a [|b [|d l]]]; cbn in Hl; try lia.
    cbn. rewrite IH by lia. done.
Qed.

Lemma with_duals_with_duals c (a b d a' b' d' : np.ndarray Scalar) :
  ExpCone.with_duals (ExpCone.with_duals c a b d) a' b' d'
  = ExpCone.with_duals c a' b' d'.
Proof. done. Qed.

Lemma with_duals_invariant c (a b d : np.ndarray Scalar) :
  ExpCone.invariant c → ExpCone.invariant (ExpCone.with_duals c a b d).
Proof. intros (? & ? & ? & ?). by repeat split. Qed.

(** What [save_dual_value] raises, and when. *)
Lemma save_dual_value_Raise_rows c v :
  np.size v `mod` 3 ≠ 0 →
  ExpCone.save_dual_value v c
  = (Raise (ReshapeError (np.size v) [(-1)%Z; 3%Z]), c).
Proof.
  intros Hmod.
  unfold ExpCone.save_dual_value, ExpCone.self_, lift.
  unfold mbind at 1 2, method_bind.
  by rewrite reshape_rows_of_3, bool_decide_eq_false_2.
Qed.

Lemma save_dual_value_Raise_count c v :
  np.size v `mod` 3 = 0 → np.size v `div` 3 ≠ ExpCone.num_cones c →
  ExpCone.save_dual_value v c
  = (Raise (ReshapeError (np.size v `div` 3)
                         (Z.of_nat <$> expr.shape (ExpCone.x c))), c).
Proof.
  intros Hmod Hcount.
  unfold ExpCone.num_cones, expr.size in Hcount.
  unfold ExpCone.save_dual_value, ExpCone.self_, lift.
  unfold mbind at 1 2, method_bind.
  rewrite reshape_rows_of_3, bool_decide_eq_true_2 by done.
  apply Nat.Div0.div_exact in Hmod. unfold np.size in *.
  unfold mbind at 1, method_bind.
  rewrite recover_column by lia.
  by rewrite bool_decide_eq_false_2 by lia.
Qed.

(** X2. The error of a failed recovery tells which reshape failed: a
    vector whose length is no multiple of three is refused by the reshape
    to [(-1, 3)], reported with that length; a multiple of three with the
    wrong number of rows is refused by the reshape of the first column to
    the shape of [x], reported with the number of rows. In both cases the
    instance is as it was. *)
Theorem save_dual_value_error_report (c : ExpCone.t)
    (v : np.ndarray Scalar) :
  (np.size v `mod` 3 ≠ 0 →
     ExpCone.save_dual_value v c
     = (Raise (ReshapeError (np.size v) [(-1)%Z; 3%Z]), c)) ∧
  (np.size v `mod` 3 = 0 → np.size v `div` 3 ≠ ExpCone.num_cones c →
     ExpCone.save_dual_value v c
     = (Raise (ReshapeError (np.size v `div` 3)
                            (Z.of_nat <$> expr.shape (ExpCone.x c))), c)).
Proof.
  split; [apply save_dual_value_Raise_rows|apply save_dual_value_Raise_count].
Qed.

(** X3. A recovery that succeeds overwrites whatever an earlier call
    left: after any first call, successful or not, saving a vector of the
    right length, [3 * num_cones()], gives the state and the outcome that
    saving it alone gives. *)
Theorem save_dual_value_overwrites (c : ExpCone.t)
    (v1 v2 : np.ndarray Scalar) :
  ExpCone.reachable c → np.size v2 = 3 * ExpCone.num_cones c →
  ExpCone.save_dual_value v2 (ExpCone.save_dual_value v1 c).2
  = ExpCone.save_dual_value v2 c.
Proof.
  intros Hinv%ExpCone_reachable_invariant Hv2.
  rewrite (save_dual_value_Ok c v2) by done.
  destruct (decide (np.size v1 = 3 * ExpCone.num_cones c)) as [Hv1|Hv1].
  - rewrite (save_dual_value_Ok c v1) by done. cbn [snd].
    rewrite save_dual_value_Ok; [done|by apply with_duals_invariant|done].
  - destruct (save_dual_value_Raise c v1 Hinv Hv1) as (? & ? & ->).
    cbn [snd]. by rewrite save_dual_value_Ok.
Qed.

(** X4. Nothing is lost in the recovery: laying the three stored arrays
    out cone by cone again gives back the vector that was saved. *)
Theorem dual_values_reinterleave (c : ExpCone.t) (l : list Scalar) :
  ExpCone.reachable c → length l = 3 * ExpCone.num_cones c →
  ∃ dx dy dz,
    ExpCone.save_dual_value (np.vector l) c
      = (Ok (), ExpCone.with_duals c dx dy dz) ∧
    np.interleave3 (np.data dx) (np.data dy) (np.data dz) = l.
Proof.
  intros Hinv%ExpCone_reachable_invariant Hl.
  eexists _, _, _. split; [by apply save_dual_value_Ok|].
  cbn [np.data np.vector]. by eapply interleave3_every_third.
Qed.

End recovery_more.

(** ** Invariants of the instances *)

Section invariants.
Context `{EG : ExpressionGraph}.

Lemma Constraint_init_duals (es : list Expression) (constr_id : option Z) :
  dual_variables (Constraint_init es constr_id) = replicate (length es) None.
Proof.
  unfold Constraint_init. cbn [dual_variables].
  induction es as [|e es IH]; [done|]. cbn. by rewrite <- IH.
Qed.

Lemma ExpCone_init_base rx ry rz constr_id c :
  ExpCone.init rx ry rz constr_id = Ok c →
  ExpCone.base c
  = Constraint_init [ExpCone.x c; ExpCone.y c; ExpCone.z c] constr_id.
Proof.
  unfold ExpCone.init.
  destruct (cast_to_const rx) as [ex|]; [|done].
  destruct (cast_to_const ry) as [ey|]; [|done].
  destruct (cast_to_const rz) as [ez|]; [|done]. cbn.
  destruct (_ || _); [done|]. by intros [= <-].
Qed.

Lemma RelEntrQuad_init_base rx ry rz m k constr_id q :
  RelEntrQuad.init rx ry rz m k constr_id = Ok q →
  RelEntrQuad.base q
  = Constraint_init [RelEntrQuad.x q; RelEntrQuad.y q; RelEntrQuad.z q]
                    constr_id.
Proof.
  unfold RelEntrQuad.init.
  destruct (cast_to_const rx) as [ex|]; [|done].
  destruct (cast_to_const ry) as [ey|]; [|done].
  destruct (cast_to_const rz) as [ez|]; [|done]. cbn.
  destruct (_ || _); [done|]. by intros [= <-].
Qed.

(** X5. Every ExpCone a program can hold, whatever was saved into it,
    has three operands of one shape (so [y] and [z] agree as well), lists
    them as [x, y, z], and has exactly three dual-value slots that are
    either all empty or all filled, each filled one with an array of the
    shape of its operand and one entry per cone. *)
Theorem ExpCone_instances_well_formed (c : ExpCone.t) :
  ExpCone.reachable c →
  (expr.shape (ExpCone.x c) = expr.shape (ExpCone.y c) ∧
   expr.shape (ExpCone.y c) = expr.shape (ExpCone.z c)) ∧
  args (ExpCone.base c) = [ExpCone.x c; ExpCone.y c; ExpCone.z c] ∧
  ∃ s0 s1 s2,
    dual_variables (ExpCone.base c) = [s0; s1; s2] ∧
    ExpCone.slot_holds c (ExpCone.x c) s0 ∧
    ExpCone.slot_holds c (ExpCone.y c) s1 ∧
    ExpCone.slot_holds c (ExpCone.z c) s2 ∧
    (is_Some s0 ↔ is_Some s1) ∧ (is_Some s1 ↔ is_Some s2).
Proof.
  intros Hc. pose proof (ExpCone_reachable_invariant c Hc) as (Hy & Hz & Ha & _).
  split; [split; congruence|]. split; [done|]. clear Hy Hz Ha.
  induction Hc as [rx ry rz constr_id c Hinit|c v r c' Hc IH Hsave].
  - rewrite (ExpCone_init_base _ _ _ _ _ Hinit), Constraint_init_duals.
    exists None, None, None. by repeat split.
  - pose proof (ExpCone_reachable_invariant c Hc) as Hinv.
    destruct (decide (np.size v = 3 * ExpCone.num_cones c)) as [Hv|Hv].
    + rewrite save_dual_value_Ok in Hsave by done.
      injection Hsave as _ <-. eexists _, _, _. split; [done|].
      destruct Hinv as (Hy & Hz & _).
      unfold ExpCone.slot_holds, ExpCone.num_cones, expr.size in *.
      cbn [np.shape np.data ExpCone.with_duals ExpCone.x ExpCone.y ExpCone.z].
      unfold np.size in Hv.
      rewrite !(length_every_third _ _ _ Hv).
      repeat split; eauto.
    + destruct (save_dual_value_Raise c v Hinv Hv) as (? & ? & Hr).
      rewrite Hr in Hsave. by injection Hsave as _ <-.
Qed.

Lemma RelEntrQuad_reachable_base (q : RelEntrQuad.t) :
  RelEntrQuad.reachable q →
  RelEntrQuad.base q
  = Constraint_init [RelEntrQuad.x q; RelEntrQuad.y q; RelEntrQuad.z q]
                    (constr_id (RelEntrQuad.base q)).
Proof.
  induction 1 as [rx ry rz m k constr_id q Hinit|q v r q' Hq IH Hsave].
  - by rewrite (RelEntrQuad_init_base _ _ _ _ _ _ _ Hinit) at 1 2.
  - by injection Hsave as _ <-.
Qed.

(** X6. Every RelEntrQuad a program can hold has three operands of one
    shape, lists them as [x, y, z], and has three dual-value slots, all of
    them empty: no call ever fills them. *)
Theorem RelEntrQuad_instances_well_formed (q : RelEntrQuad.t) :
  RelEntrQuad.reachable q →
  (expr.shape (RelEntrQuad.x q) = expr.shape (RelEntrQuad.y q) ∧
   expr.shape (RelEntrQuad.y q) = expr.shape (RelEntrQuad.z q)) ∧
  args (RelEntrQuad.base q)
    = [RelEntrQuad.x q; RelEntrQuad.y q; RelEntrQuad.z q] ∧
  dual_variables (RelEntrQuad.base q) = [None; None; None].
Proof.
  intros Hq.
  pose proof (RelEntrQuad_reachable_invariant q Hq) as (Hy & Hz & Ha & _).
  split; [split; congruence|]. split; [done|].
  by rewrite (RelEntrQuad_reachable_base q Hq), Constraint_init_duals.
Qed.

(** X7. A RelEntrQuad can be rebuilt from what it exposes: calling the
    constructor on its three operands, the two entries of [get_data()]
    and its identifier returns the very same instance. *)
Theorem RelEntrQuad_rebuild (q : RelEntrQuad.t) (m k : Z) :
  RelEntrQuad.reachable q → RelEntrQuad.get_data q = [m; k] →
  RelEntrQuad.init (as_raw (RelEntrQuad.x q)) (as_raw (RelEntrQuad.y q))
                   (as_raw (RelEntrQuad.z q)) m k
                   (constr_id (RelEntrQuad.base q))
  = Ok q.
Proof.
  intros Hq [= <- <-].
  pose proof (RelEntrQuad_reachable_invariant q Hq) as (Hy & Hz & _).
  pose proof (RelEntrQuad_reachable_base q Hq) as Hb.
  rewrite (RelEntrQuad_init_cast _ _ _ _ _ _ _ _ _
             (cast_to_const_expression _) (cast_to_const_expression _)
             (cast_to_const_expression _)).
  rewrite (proj2 (shapes_differ_spec _ _ _)) by done.
  rewrite <- Hb. by destruct q.
Qed.

(** X8. Rebuilding an ExpCone from its operands and identifier gives the
    same operands and operand list with empty dual-value slots; it gives
    the instance itself as long as no dual values were saved into it. *)
Theorem ExpCone_rebuild (c : ExpCone.t) :
  ExpCone.reachable c →
  ∃ c0,
    ExpCone.init (as_raw (ExpCone.x c)) (as_raw (ExpCone.y c))
                 (as_raw (ExpCone.z c)) (constr_id (ExpCone.base c)) = Ok c0 ∧
    ExpCone.same_but_duals c c0 ∧
    dual_variables (ExpCone.base c0) = [None; None; None] ∧
    (dual_variables (ExpCone.base c) = [None; None; None] ↔ c0 = c).
Proof.
  intros (Hy & Hz & Ha & Hl)%ExpCone_reachable_invariant.
  rewrite (ExpCone_init_cast _ _ _ _ _ _ _
             (cast_to_const_expression _) (cast_to_const_expression _)
             (cast_to_const_expression _)).
  rewrite (proj2 (shapes_differ_spec _ _ _)) by done.
  eexists. split; [done|].
  destruct c as [ex ey ez [a i d]]. cbn in *. subst a.
  repeat split; try done; [by intros ->|by intros [= <-]].
Qed.

End invariants.

Lemma ExpCone_instances_well_formed_witness :
  args (ExpCone.base sample.cone)
  = [sample.u; sample.Const sample.c4; sample.w].
Proof.
  exact (proj1 (proj2 (ExpCone_instances_well_formed (EG := sample.graph)
                         sample.cone sample_cone_reachable))).
Defined.

Lemma RelEntrQuad_instances_well_formed_witness :
  dual_variables (RelEntrQuad.base sample.quad) = [None; None; None].
Proof.
  exact (proj2 (proj2 (RelEntrQuad_instances_well_formed (EG := sample.graph)
                         sample.quad sample_quad_reachable))).
Defined.

Lemma RelEntrQuad_rebuild_witness :
  RelEntrQuad.init (EG := sample.graph)
    (inl (sample.Const sample.c4)) (inl sample.w)
    (inl (sample.Neg sample.u)) 3 2 None
  = Ok sample.quad.
Proof.
  exact (RelEntrQuad_rebuild (EG := sample.graph) sample.quad 3 2
           sample_quad_reachable eq_refl).
Defined.

Lemma ExpCone_rebuild_witness :
  ∃ c0, ExpCone.init (EG := sample.graph) (inl sample.u)
          (inl (sample.Const sample.c4)) (inl sample.w) None = Ok c0 ∧
        dual_variables (ExpCone.base c0) = [None; None; None].
Proof.
  destruct (ExpCone_rebuild (EG := sample.graph) sample.cone
              sample_cone_reachable) as (c0 & Hinit & _ & Hduals & _).
  exact (ex_intro _ c0 (conj Hinit Hduals)).
Defined.

(** ** How the constructors fail *)

Section constructor_errors.
Context `{EG : ExpressionGraph}.

Lemma shapes_differ_true (xs ys zs : list nat) :
  bool_decide (xs ≠ ys) || bool_decide (xs ≠ zs) = true ↔ xs ≠ ys ∨ xs ≠ zs.
Proof. by rewrite orb_true_iff, !bool_decide_eq_true. Qed.

(** X9. A constructor raises what the first failing cast raises, the
    casts being tried in the order x, y, z and before any shape is looked
    at; when all three casts succeed the only error is the shape
    mismatch. The two constructors fail on the same arguments with the
    same error, whatever [m] and [k]. *)
Theorem init_error_order (rx ry rz : Raw) (m k : Z) (constr_id : option Z)
    (e : Exn) :
  (ExpCone.init rx ry rz constr_id = Raise e ↔ init_failure rx ry rz e) ∧
  (RelEntrQuad.init rx ry rz m k constr_id = Raise e ↔
   init_failure rx ry rz e).
Proof.
  unfold ExpCone.init, RelEntrQuad.init, init_failure.
  destruct (cast_to_const rx) as [ex|ex'] eqn:Hx; cbn.
  2:{ split; (split; [intros [= <-]; by left|]);
        intros [[= ->]|[(? & [=] & _)|[(? & ? & [=] & _)|(? & ? & ? & [=] & _)]]];
        done. }
  destruct (cast_to_const ry) as [ey|ey'] eqn:Hy; cbn.
  2:{ split; (split; [intros [= <-]; right; left; by eexists|]);
        intros [[=]|[(? & _ & [= ->])|[(? & ? & _ & [=] & _)
                                      |(? & ? & ? & _ & [=] & _)]]];
        done. }
  destruct (cast_to_const rz) as [ez|ez'] eqn:Hz; cbn.
  2:{ split; (split; [intros [= <-]; right; right; left; by eexists _, _|]);
        intros [[=]|[(? & _ & [=])|[(? & ? & _ & _ & [= ->])
                                   |(? & ? & ? & _ & _ & [=] & _)]]];
        done. }
  destruct (_ || _) eqn:Hs.
  - apply shapes_differ_true in Hs.
    split; (split; [intros [= <-]; do 3 right; by eexists _, _, _|]);
      intros [[=]|[(? & _ & [=])|[(? & ? & _ & _ & [=])
                                 |(? & ? & ? & [= <-] & [= <-] & [= <-] & _ & ->)]]];
      done.
  - apply shapes_differ_spec in Hs as [Hxy Hxz].
    split; (split; [done|]);
      intros [[=]|[(? & _ & [=])|[(? & ? & _ & _ & [=])
                                 |(? & ? & ? & [= <-] & [= <-] & [= <-] & [?|?] & _)]]];
      done.
Qed.

End constructor_errors.

(** A cast that fails decides the error, even where the shapes of the
    other two operands disagree. *)
Lemma init_error_order_witness :
  ExpCone.init (EG := sample.strict_graph)
    (inl (sample.Var [2] None)) (inr None) (inl (sample.Var [3] None)) None
  = Raise (ValueError "not a constant").
Proof.
  apply (init_error_order (EG := sample.strict_graph)
           (inl (sample.Var [2] None)) (inr None) (inl (sample.Var [3] None))
           0 0 None).
  right. left. by exists (sample.Var [2] None).
Defined.

(** ** The converted and the nested cone *)

Section derived_cones.
Context `{EG : ExpressionGraph} `{ML : Modelling}.

(** X10. The RelEntrQuad that [as_quad_approx] returns is a regular
    instance with the bookkeeping of the ExpCone it came from: the same
    number of cones, size, shape and cone sizes, three operands of one
    shape, and empty dual-value slots, whatever dual values the ExpCone
    holds. *)
Theorem as_quad_approx_bookkeeping (c : ExpCone.t) (m k : Z) :
  ExpCone.reachable c →
  ∃ q, ExpCone.as_quad_approx c m k = Ok q ∧
       RelEntrQuad.reachable q ∧
       RelEntrQuad.num_cones q = ExpCone.num_cones c ∧
       RelEntrQuad.size q = ExpCone.size c ∧
       RelEntrQuad.shape q = ExpCone.shape c ∧
       RelEntrQuad.cone_sizes q = ExpCone.cone_sizes c ∧
       dual_variables (RelEntrQuad.base q) = [None; None; None].
Proof.
  intros Hinv%ExpCone_reachable_invariant.
  pose proof (as_quad_approx_Ok c m k Hinv) as Hq.
  eexists. split; [exact Hq|]. destruct Hinv as (Hy & _).
  split; [by eapply RelEntrQuad.reachable_init|].
  unfold RelEntrQuad.size, RelEntrQuad.cone_sizes, RelEntrQuad.num_cones,
    RelEntrQuad.shape, ExpCone.size, ExpCone.cone_sizes, ExpCone.num_cones,
    ExpCone.shape, expr.size.
  cbn [RelEntrQuad.x RelEntrQuad.base]. rewrite Hy. by repeat split.
Qed.

Lemma raises_nothing_run {C W A} (h : Handler (C := C) W) (p : Prog C A) :
  raises_nothing p → honest h →
  ∀ w e w', run h p w = (Raise e, w') → raised_by_call h e.
Proof.
  intros Hp Hh. induction Hp as [a|X op k _ IH]; intros w e w' Hrun.
  - discriminate Hrun.
  - cbn in Hrun. destruct (h X op w) as [[x|e0] w1] eqn:Hop.
    + eapply IH; [|exact Hrun]. by eapply Hh.
    + injection Hrun as -> ->. by exists X, op, w, w'.
Qed.

Lemma raises_nothing_solve_projection {C} (variables : list Expression)
    (values : list (np.ndarray Scalar)) (constr : list C) :
  raises_nothing (solve_projection variables values constr).
Proof.
  unfold solve_projection. cbn.
  repeat (constructor; intros ? _).
Qed.

Lemma raises_nothing_projection {C} (xs ys zs : list nat)
    (values : list (np.ndarray Scalar))
    (cone : Expression → Expression → Expression → result C) :
  (∀ x y z, expr.shape x = xs → expr.shape y = ys → expr.shape z = zs →
            ∃ c, cone x y z = Ok c) →
  raises_nothing (projection xs ys zs values cone).
Proof.
  intros Hcone. unfold projection. cbn.
  constructor; intros x Hx. constructor; intros y Hy.
  constructor; intros z Hz. cbn in Hx, Hy, Hz.
  destruct (Hcone x y z Hx Hy Hz) as [c ->]. cbn.
  apply raises_nothing_solve_projection.
Qed.

Lemma ExpCone_residual_raises_nothing (c : ExpCone.t) :
  ExpCone.invariant c → raises_nothing (ExpCone.residual c).
Proof.
  intros Hc. unfold ExpCone.residual.
  destruct (expr.value (ExpCone.x c)), (expr.value (ExpCone.y c)),
    (expr.value (ExpCone.z c)); try by constructor.
  apply (raises_nothing_projection _ _ _ _
           (λ x y z, ExpCone.init (as_raw x) (as_raw y) (as_raw z) None)).
  intros x y z Hx Hy Hz. eexists. by apply (ExpCone_init_shaped c).
Qed.

Lemma RelEntrQuad_residual_raises_nothing (q : RelEntrQuad.t) :
  RelEntrQuad.invariant q → raises_nothing (RelEntrQuad.residual q).
Proof.
  intros Hq. unfold RelEntrQuad.residual.
  destruct (expr.value (RelEntrQuad.x q)), (expr.value (RelEntrQuad.y q)),
    (expr.value (RelEntrQuad.z q)); try by constructor.
  apply (raises_nothing_projection _ _ _ _
           (λ x y z, RelEntrQuad.init (as_raw x) (as_raw y) (as_raw z)
                       (RelEntrQuad.m q) (RelEntrQuad.k q) None)).
  intros x y z Hx Hy Hz. eexists. by apply (RelEntrQuad_init_shaped q).
Qed.

(** X11. The residual of an ExpCone or a RelEntrQuad raises nothing of
    its own: as long as [Variable] returns variables of the shapes asked
    for, no path through it ends in an exception of this module, so an
    exception that leaves it is one that a call to the modelling layer
    ([Variable], [hstack], [norm2], [Problem], [solve], ...) raised. The
    cone it constructs over three such variables is a regular instance of
    the same class with the [num_cones], [size] and [shape] of the
    original and with empty dual-value slots; for a RelEntrQuad it has the
    same [get_data()]. *)
Theorem residual_nested_cone (c : ExpCone.t) (q : RelEntrQuad.t) :
  ExpCone.reachable c → RelEntrQuad.reachable q →
  (raises_nothing (ExpCone.residual c) ∧
   raises_nothing (RelEntrQuad.residual q)) ∧
  (∀ W (h : Handler (C := ExpCone.t) W) w e w',
     honest h → run h (ExpCone.residual c) w = (Raise e, w') →
     raised_by_call h e) ∧
  (∀ W (h : Handler (C := RelEntrQuad.t) W) w e w',
     honest h → run h (RelEntrQuad.residual q) w = (Raise e, w') →
     raised_by_call h e) ∧
  (∀ x' y' z',
     expr.shape x' = expr.shape (ExpCone.x c) →
     expr.shape y' = expr.shape (ExpCone.y c) →
     expr.shape z' = expr.shape (ExpCone.z c) →
     ∃ c', ExpCone.init (as_raw x') (as_raw y') (as_raw z') None = Ok c' ∧
           ExpCone.reachable c' ∧
           ExpCone.num_cones c' = ExpCone.num_cones c ∧
           ExpCone.size c' = ExpCone.size c ∧
           ExpCone.shape c' = ExpCone.shape c ∧
           dual_variables (ExpCone.base c') = [None; None; None]) ∧
  (∀ x' y' z',
     expr.shape x' = expr.shape (RelEntrQuad.x q) →
     expr.shape y' = expr.shape (RelEntrQuad.y q) →
     expr.shape z' = expr.shape (RelEntrQuad.z q) →
     ∃ q', RelEntrQuad.init (as_raw x') (as_raw y') (as_raw z')
             (RelEntrQuad.m q) (RelEntrQuad.k q) None = Ok q' ∧
           RelEntrQuad.reachable q' ∧
           RelEntrQuad.num_cones q' = RelEntrQuad.num_cones q ∧
           RelEntrQuad.size q' = RelEntrQuad.size q ∧
           RelEntrQuad.shape q' = RelEntrQuad.shape q ∧
           RelEntrQuad.get_data q' = RelEntrQuad.get_data q ∧
           dual_variables (RelEntrQuad.base q') = [None; None; None]).
Proof.
  intros Hc%ExpCone_reachable_invariant Hq%RelEntrQuad_reachable_invariant.
  pose proof (ExpCone_residual_raises_nothing c Hc) as Hrc.
  pose proof (RelEntrQuad_residual_raises_nothing q Hq) as Hrq.
  split; [done|].
  split; [intros W h w e w' Hh; by apply raises_nothing_run|].
  split; [intros W h w e w' Hh; by apply raises_nothing_run|].
  split.
  - intros x' y' z' Hx' Hy' Hz'.
    pose proof (ExpCone_init_shaped c x' y' z' Hc Hx' Hy' Hz') as Hinit.
    eexists. split; [exact Hinit|].
    split; [by eapply ExpCone.reachable_init|].
    unfold ExpCone.size, ExpCone.num_cones, ExpCone.shape, expr.size.
    cbn [ExpCone.x ExpCone.base]. by rewrite Hx'.
  - intros x' y' z' Hx' Hy' Hz'.
    pose proof (RelEntrQuad_init_shaped q x' y' z' (RelEntrQuad.m q)
                  (RelEntrQuad.k q) Hq Hx' Hy' Hz') as Hinit.
    eexists. split; [exact Hinit|].
    split; [by eapply RelEntrQuad.reachable_init|].
    unfold RelEntrQuad.size, RelEntrQuad.num_cones, RelEntrQuad.shape,
      expr.size.
    cbn [RelEntrQuad.x RelEntrQuad.base]. by rewrite Hx'.
Qed.

End derived_cones.

Lemma as_quad_approx_bookkeeping_witness :
  ∃ q, ExpCone.as_quad_approx (EG := sample.graph) sample.cone 3 2 = Ok q ∧
       RelEntrQuad.size q = 12%Z ∧ RelEntrQuad.shape q = [3; 2; 2].
Proof.
  destruct (as_quad_approx_bookkeeping (EG := sample.graph) sample.cone 3 2
              sample_cone_reachable)
    as (q & Hq & _ & _ & Hsize & Hshape & _).
  exact (ex_intro _ q (conj Hq (conj Hsize Hshape))).
Defined.

Lemma sample_handler_honest {C : Type} :
  honest (sample.handler (C := C)).
Proof.
  intros X op w x w' Hop. destruct op; try exact I.
  cbn in Hop. by injection Hop as <- _.
Qed.

(** With the sample layer, whose solver gives up, the residual of a
    RelEntrQuad with assigned values raises the solver's error. *)
Lemma residual_nested_cone_witness :
  raised_by_call (sample.handler (C := RelEntrQuad.t (EG := sample.graph)))
                 (OtherError "SolverError" "no solver").
Proof.
  apply (proj1 (proj2 (proj2 (residual_nested_cone
                  (EG := sample.graph) (ML := sample.layer)
                  sample.solved_cone sample.solved_quad
                  sample_solved_cone_reachable sample_solved_quad_reachable)))
           nat sample.handler 0 (OtherError "SolverError" "no solver") 3).
  - apply sample_handler_honest.
  - reflexivity.
Defined.

(** ** Certification and the analysis scope *)

Section scope_facts.
Context `{EG : ExpressionGraph}.

(** X12. With [dpp] set the answer of [is_dcp] does not depend on the
    ambient scope, and inside an active parametrized scope the flag makes
    no difference; [is_dqcp] answers as [is_dcp] without the flag and so
    follows the ambient scope; [is_dgp] is false with or without the flag.
    This holds for both classes, and every one of these calls leaves the
    ambient scope as it found it. *)
Theorem certification_scopes (c : ExpCone.t) (q : RelEntrQuad.t)
    (active : bool) :
  ((ExpCone.is_dcp true c active).1 = (ExpCone.is_dcp true c true).1 ∧
   ExpCone.is_dcp true c true = ExpCone.is_dcp false c true ∧
   ExpCone.is_dqcp c active = ExpCone.is_dcp false c active ∧
   (ExpCone.is_dqcp c active).2 = active ∧
   (∀ dpp, ExpCone.is_dgp dpp c = false)) ∧
  ((RelEntrQuad.is_dcp true q active).1 = (RelEntrQuad.is_dcp true q true).1 ∧
   RelEntrQuad.is_dcp true q true = RelEntrQuad.is_dcp false q true ∧
   RelEntrQuad.is_dqcp q active = RelEntrQuad.is_dcp false q active ∧
   (RelEntrQuad.is_dqcp q active).2 = active ∧
   (∀ dpp, RelEntrQuad.is_dgp dpp q = false)).
Proof.
  unfold ExpCone.is_dqcp, ExpCone.is_dcp, ExpCone.is_dgp,
    RelEntrQuad.is_dqcp, RelEntrQuad.is_dcp, RelEntrQuad.is_dgp.
  rewrite !dpp_scope_all_affine, !all_affine_spec. by repeat split.
Qed.

End scope_facts.

(** ** What the rendering shows *)

Section str_facts.
Context `{EG : ExpressionGraph}.
Variable str_expr : Expression → string.

Lemma pretty_N_digits (x : N) : py.all_digits (pretty x) = true.
Proof.
  unfold pretty, pretty_N. case_decide; [done|]. by apply pretty_N_go_digits.
Qed.

(** The rendering of an integer is a run of digits after an optional
    minus sign. *)
Lemma pretty_Z_split (a : Z) :
  ∃ sign digits, pretty a = sign +:+ digits ∧
                 (sign = "" ∨ sign = "-") ∧ py.all_digits digits = true.
Proof.
  destruct a as [|p|p]; unfold pretty, pretty_Z.
  - exists "", "0". by eauto.
  - exists "", (pretty p). split; [done|]. split; [by left|].
    apply pretty_N_digits.
  - exists "-", (pretty p). split; [done|]. split; [by right|].
    apply pretty_N_digits.
Qed.

Lemma pretty_Z_token (a b : Z) c c' r r' :
  py.is_digit c = false → c ≠ "-"%char →
  py.is_digit c' = false → c' ≠ "-"%char →
  pretty a +:+ String c r = pretty b +:+ String c' r' →
  a = b ∧ c = c' ∧ r = r'.
Proof.
  intros Hc Hcm Hc' Hcm' Heq.
  destruct (pretty_Z_split a) as (sa & da & Ha & Hsa & Hda).
  destruct (pretty_Z_split b) as (sb & db & Hb & Hsb & Hdb).
  assert (pretty a = pretty b ∧ c = c' ∧ r = r') as (Hab & ? & ?);
    [|by apply (inj pretty) in Hab].
  rewrite Ha, Hb in *. clear Ha Hb.
  destruct Hsa as [->| ->], Hsb as [->| ->];
    rewrite ?string_app_nil, ?string_app_cons in *.
  - by destruct (digits_token _ _ _ _ _ _ Hda Hdb Hc Hc' Heq) as (-> & ? & ?).
  - exfalso. destruct da as [|d da];
      rewrite ?string_app_nil, ?string_app_cons in Heq; simplify_eq;
      try by apply andb_prop in Hda as [? _].
  - exfalso. destruct db as [|d db];
      rewrite ?string_app_nil, ?string_app_cons in Heq; simplify_eq;
      try by apply andb_prop in Hdb as [? _].
  - injection Heq as Heq.
    by destruct (digits_token _ _ _ _ _ _ Hda Hdb Hc Hc' Heq) as (-> & ? & ?).
Qed.

(** X13. The rendering of a RelEntrQuad shows its parameters: two
    instances whose operands render alike and whose strings are equal
    have the same [m] and [k]. The string of an ExpCone is never that of a
    RelEntrQuad, and for both classes [repr] is [str]. *)
Theorem str_shows_parameters (c : ExpCone.t) (q q' : RelEntrQuad.t) :
  str_expr (RelEntrQuad.x q) = str_expr (RelEntrQuad.x q') →
  str_expr (RelEntrQuad.y q) = str_expr (RelEntrQuad.y q') →
  str_expr (RelEntrQuad.z q) = str_expr (RelEntrQuad.z q') →
  (RelEntrQuad_str str_expr q = RelEntrQuad_str str_expr q' →
   RelEntrQuad.m q = RelEntrQuad.m q' ∧ RelEntrQuad.k q = RelEntrQuad.k q') ∧
  ExpCone_str str_expr c ≠ RelEntrQuad_str str_expr q ∧
  ExpCone_repr str_expr c = ExpCone_str str_expr c ∧
  RelEntrQuad_repr str_expr q = RelEntrQuad_str str_expr q.
Proof.
  intros Hx Hy Hz. split; [|by repeat split].
  unfold RelEntrQuad_str. cbn zeta. rewrite Hx, Hy, Hz.
  intros Heq. repeat apply (inj (String.app _)) in Heq.
  rewrite !string_app_cons, !string_app_nil in Heq.
  apply pretty_Z_token in Heq as (-> & _ & Heq); [|done..].
  injection Heq as Heq.
  by apply pretty_Z_token in Heq as (-> & _ & _).
Qed.

End str_facts.

Lemma str_shows_parameters_witness :
  ExpCone_str (EG := sample.graph) (λ _, "e") sample.cone
  ≠ RelEntrQuad_str (EG := sample.graph) (λ _, "e") sample.quad.
Proof.
  exact (proj1 (proj2 (str_shows_parameters (EG := sample.graph) (λ _, "e")
                         sample.cone sample.quad sample.solved_quad
                         eq_refl eq_refl eq_refl))).
Defined.

Lemma save_dual_value_overwrites_witness :
  ExpCone.save_dual_value (EG := sample.graph)
    (np.vector [1; 2; 3; 4; 5; 6; 7; 8; 9; 10; 11; 12]%Z)
    (ExpCone.save_dual_value (EG := sample.graph)
       (np.vector [0; 0; 0; 0; 0; 0; 0]%Z) sample.cone).2
  = ExpCone.save_dual_value (EG := sample.graph)
      (np.vector [1; 2; 3; 4; 5; 6; 7; 8; 9; 10; 11; 12]%Z) sample.cone.
Proof.
  exact (save_dual_value_overwrites (EG := sample.graph) sample.cone
           (np.vector [0; 0; 0; 0; 0; 0; 0]%Z)
           (np.vector [1; 2; 3; 4; 5; 6; 7; 8; 9; 10; 11; 12]%Z)
           sample_cone_reachable eq_refl).
Defined.

Lemma dual_values_reinterleave_witness :
  ∃ dx dy dz,
    ExpCone.save_dual_value (EG := sample.graph)
      (np.vector [1; 2; 3; 4; 5; 6; 7; 8; 9; 10; 11; 12]%Z) sample.cone
      = (Ok (), ExpCone.with_duals (EG := sample.graph) sample.cone dx dy dz) ∧
    np.interleave3 (np.data dx) (np.data dy) (np.data dz)
      = [1; 2; 3; 4; 5; 6; 7; 8; 9; 10; 11; 12]%Z.
Proof.
  exact (dual_values_reinterleave (EG := sample.graph) sample.cone
           [1; 2; 3; 4; 5; 6; 7; 8; 9; 10; 11; 12]%Z
           sample_cone_reachable eq_refl).
Defined.
